(** * Sprite extraction and normalisation scripts

    A shallow embedding of the two scripts of the repository:
    - [getsprites.py]   (the Extractor): cuts the sprites out of a sheet;
    - [resizesprites.py] (the Normalizer): quarter-scales every sprite and
      centres it on a transparent canvas padded to multiples of 32.

    Both scripts are straight-line Python over a file system, so they are
    modelled in a state-and-exception monad over a [world] (directories,
    files, standard output).  Integers are [Z] (Python's are unbounded),
    loop indices are [nat], paths and file names are [string], and the
    directories are [gmap]s from path to file content. *)

From Stdlib Require Import ZArith Lia Bool Ascii DecimalString DecimalNat.
From stdpp Require Import gmap strings list fin_maps.

Local Open Scope Z_scope.

(** ** Python exceptions and results *)

Inductive exn :=
| ZeroDivisionError
| OverflowError
| AttributeError
| IndexError
| ValueError
| FileNotFoundError
| FileExistsError
| UnidentifiedImageError.

Inductive result (A : Type) :=
| Ok (a : A)
| Raise (e : exn).

Arguments Ok {A} a.
Arguments Raise {A} e.

(** ** Python numbers: floor division, true division and [math.ceil] *)

Module PyNum.

(** A finite IEEE-754 binary64 value, held exactly as [mant * 2 ^ expo]. *)
Record float := mkFloat { mant : Z; expo : Z }.

(** Numerator and denominator of [a / (b * 2 ^ e)] kept integral. *)
Definition scale_num (a e : Z) : Z := if 0 <=? e then a else a * 2 ^ (- e).
Definition scale_den (b e : Z) : Z := if 0 <=? e then b * 2 ^ e else b.

(** Nearest integer to [num / den], ties to even ([0 < den]). *)
Definition round_half_even (num den : Z) : Z :=
  let q := num / den in
  let r := num mod den in
  if 2 * r <? den then q
  else if den <? 2 * r then q + 1
  else if Z.even q then q else q + 1.

(** Exponent of the unit in the last place of the binary64 nearest to the
    positive rational [a / b]: 53 significant bits, never below the
    subnormal exponent -1074. *)
Definition ulp_expo (a b : Z) : Z :=
  let e0 := Z.log2 a - Z.log2 b - 52 in
  let e1 := if scale_num a e0 / scale_den b e0 <? 2 ^ 52 then e0 - 1 else e0 in
  Z.max e1 (- 1074).

(** [a / b] on two positive ints: the correctly rounded quotient, or
    [OverflowError] when it exceeds the largest finite float. *)
Definition true_div_pos (a b : Z) : result float :=
  let e := ulp_expo a b in
  let m := round_half_even (scale_num a e) (scale_den b e) in
  if (971 <? e) || ((e =? 971) && (m =? 2 ^ 53)) then Raise OverflowError
  else Ok (mkFloat m e).

(** Python 3 [a / b] on ints. *)
Definition true_div (a b : Z) : result float :=
  if b =? 0 then Raise ZeroDivisionError
  else if a =? 0 then Ok (mkFloat 0 0)
  else
    match true_div_pos (Z.abs a) (Z.abs b) with
    | Ok f => Ok (mkFloat (Z.sgn a * Z.sgn b * mant f) (expo f))
    | Raise e => Raise e
    end.

(** [math.ceil] of a finite float, as a Python int. *)
Definition ceil (f : float) : Z :=
  if 0 <=? expo f then mant f * 2 ^ expo f
  else - ((- mant f) / 2 ^ (- expo f)).

(** Python's [//] on ints rounds towards minus infinity, as [Z.div] does. *)
Definition floordiv (a b : Z) : Z := a / b.

End PyNum.

(** ** resizesprites.py: the geometry of one sprite *)

(** [def next_multiple(n, base=32): return base * math.ceil(n / base)] *)
Definition next_multiple_base (n base : Z) : result Z :=
  match PyNum.true_div n base with
  | Ok q => Ok (base * PyNum.ceil q)
  | Raise e => Raise e
  end.

Definition next_multiple (n : Z) : result Z := next_multiple_base n 32.

(** [new_size = (max(1, sprite.width // 4), max(1, sprite.height // 4))] *)
Definition new_size (w h : Z) : Z * Z :=
  (Z.max 1 (PyNum.floordiv w 4), Z.max 1 (PyNum.floordiv h 4)).

(** [offset_x = (canvas_width - resized.width) // 2] *)
Definition offset (canvas_dim resized_dim : Z) : Z :=
  PyNum.floordiv (canvas_dim - resized_dim) 2.

(** ** The world the scripts run in

    Directories and files are keyed by their path.  Failures of the
    operating system other than a missing file or directory (permissions,
    a full disk, a directory sitting at the path of a file) are outside the
    model. *)

Abbreviation bytes := (list Byte.byte).

Record world := mkWorld {
  dirs : gset string;
  files : gmap string bytes;
  stdout : list string
}.

(** State and exceptions: a raised exception keeps the writes done so far. *)
Definition io (A : Type) : Type := world -> result A * world.

#[global] Instance io_ret : MRet io := fun A a w => (Ok a, w).

#[global] Instance io_bind : MBind io := fun A B f m w =>
  match m w with
  | (Ok a, w') => f a w'
  | (Raise e, w') => (Raise e, w')
  end.

Definition raise {A : Type} (e : exn) : io A := fun w => (Raise e, w).

Definition lift {A : Type} (r : result A) : io A := fun w => (r, w).

(** [os.path.join(dir, name)] for a relative [name]. *)
Definition path_join (dir name : string) : string := dir +:+ "/" +:+ name.

(** [os.makedirs(d, exist_ok=True)] *)
Definition makedirs (d : string) : io unit := fun w =>
  (Ok tt, mkWorld ({[ d ]} ∪ dirs w) (files w) (stdout w)).

(** [os.listdir(d)]: [entries] are the names the operating system hands
    back, in the order it chooses. *)
Definition listdir (entries : list string) (d : string) : io (list string) :=
  fun w => if decide (d ∈ dirs w) then (Ok entries, w)
           else (Raise FileNotFoundError, w).

Definition read_file (p : string) : io bytes := fun w =>
  match files w !! p with
  | Some b => (Ok b, w)
  | None => (Raise FileNotFoundError, w)
  end.

Definition write_file (p : string) (b : bytes) : io unit := fun w =>
  (Ok tt, mkWorld (dirs w) (<[ p := b ]> (files w)) (stdout w)).

Definition print (line : string) : io unit := fun w =>
  (Ok tt, mkWorld (dirs w) (files w) (stdout w ++ [line])).

(** ** Python strings *)

(** [str(n)] and [f"{n}"] for a non-negative int. *)
Definition str_of_nat (n : nat) : string :=
  NilEmpty.string_of_uint (Nat.to_uint n).

(** [f"{n:02d}"]: decimal, padded with zeros on the left to width 2. *)
Definition format_02d (n : nat) : string :=
  let s := str_of_nat n in
  if (String.length s <? 2)%nat then "0" +:+ s else s.

(** [s.endswith(suffix)] *)
Definition endswith (s suffix : string) : bool :=
  let n := String.length s in
  let k := String.length suffix in
  (k <=? n)%nat && String.eqb (String.substring (n - k) k s) suffix.

(** ** Pillow images *)

Module Pil.

Inductive mode := M1 | L | LA | P | RGB | RGBA.

(** One value per band. *)
Definition pixel := list Z.

Record Image := mkImage {
  im_mode : mode;
  width : Z;
  height : Z;
  getpixel : Z -> Z -> pixel
}.

Definition bands (m : mode) : nat :=
  match m with
  | M1 | L | P => 1
  | LA => 2
  | RGB => 3
  | RGBA => 4
  end.

Definition inside (im : Image) (x y : Z) : bool :=
  (0 <=? x) && (x <? width im) && (0 <=? y) && (y <? height im).

(** [im.crop((left, upper, right, lower))]: the result has exactly the size
    of the box; what the box covers outside the image is filled with zeros. *)
Definition crop (im : Image) (box : Z * Z * Z * Z) : Image :=
  let '(x0, y0, x1, y1) := box in
  mkImage (im_mode im) (Z.max 0 (x1 - x0)) (Z.max 0 (y1 - y0))
    (fun x y => if inside im (x0 + x) (y0 + y)
                then getpixel im (x0 + x) (y0 + y)
                else repeat 0 (bands (im_mode im))).

(** [Image.new(mode, size, color)] *)
Definition new (m : mode) (size : Z * Z) (color : pixel) : Image :=
  mkImage m (fst size) (snd size) (fun _ _ => color).

(** Modes whose image can serve as the mask of [paste]. *)
Definition mask_mode (m : mode) : bool :=
  match m with
  | M1 | L | LA | RGBA => true
  | P | RGB => false
  end.

(** Widths and heights are C ints in Pillow, and a PNG header holds at most
    [2 ^ 31 - 1] in either. *)
Definition valid_size (im : Image) : Prop :=
  0 <= width im < 2 ^ 31 /\ 0 <= height im < 2 ^ 31.

End Pil.

(** ** OpenCV arrays *)

Module Cv.

(** The element type of an array: a PNG decodes to 8-bit values, or to
    16-bit values when its bit depth is 16. *)
Inductive depth := uint8 | uint16.

(** A decoded image: [shape] is [(rows, cols)] or [(rows, cols, channels)]. *)
Record Mat := mkMat {
  shape : list nat;
  at3 : nat -> nat -> nat -> Z;
  dtype : depth
}.

(** A single-channel array. *)
Record Plane := mkPlane {
  rows : nat;
  cols : nat;
  at2 : nat -> nat -> Z
}.

(** [image[:, :, c]] *)
Definition channel (m : Mat) (c : nat) : Plane :=
  mkPlane (nth 0 (shape m) 0%nat) (nth 1 (shape m) 0%nat)
    (fun r k => at3 m r k c).

(** [cv2.threshold(src, thresh, maxval, cv2.THRESH_BINARY)[1]]:
    [maxval] where [src > thresh], 0 elsewhere. *)
Definition threshold (src : Plane) (thresh maxval : Z) : Plane :=
  mkPlane (rows src) (cols src)
    (fun r k => if thresh <? at2 src r k then maxval else 0).

(** A contour is a list of points [(x, y)]: column first, then row. *)
Definition point : Type := Z * Z.
Definition contour : Type := list point.

(** [cv2.boundingRect(cnt)]: the smallest upright rectangle [(x, y, w, h)]
    holding every point; all zeros for no point.  OpenCV computes the sides
    in 32-bit ints, which the points of an image cannot overflow. *)
Definition boundingRect (cnt : contour) : Z * Z * Z * Z :=
  match cnt with
  | [] => (0, 0, 0, 0)
  | p :: ps =>
      let x0 := foldr Z.min (fst p) (fst <$> ps) in
      let x1 := foldr Z.max (fst p) (fst <$> ps) in
      let y0 := foldr Z.min (snd p) (snd <$> ps) in
      let y1 := foldr Z.max (snd p) (snd <$> ps) in
      (x0, y0, x1 - x0 + 1, y1 - y0 + 1)
  end.

(** The point lies on the array, on a pixel that is not zero. *)
Definition on_mask (mask : Plane) (p : point) : Prop :=
  0 <= fst p < Z.of_nat (cols mask) /\
  0 <= snd p < Z.of_nat (rows mask) /\
  at2 mask (Z.to_nat (snd p)) (Z.to_nat (fst p)) <> 0.

End Cv.

(** ** The imaging libraries the scripts call

    The codecs, the contour tracer and the resampling and blending kernels
    belong to OpenCV and Pillow; the scripts only call them.  They are
    deterministic functions of their arguments. *)

Class ImageLibs := {
  (** what [cv2.imread(_, cv2.IMREAD_UNCHANGED)] makes of a file content;
      [None] when it cannot decode it *)
  cv_decode : bytes -> option Cv.Mat;
  (** [cv2.cvtColor(_, cv2.COLOR_BGR2GRAY)] *)
  cvtColor_BGR2GRAY : Cv.Mat -> Cv.Plane;
  (** [cv2.findContours(_, cv2.RETR_EXTERNAL, cv2.CHAIN_APPROX_SIMPLE)[0]] *)
  findContours : Cv.Plane -> list Cv.contour;
  (** what [Image.open] makes of a file content *)
  pil_decode : bytes -> option Pil.Image;
  (** the PNG file [Image.save] writes *)
  png_encode : Pil.Image -> bytes;
  (** the pixel of [im.resize(size, Image.NEAREST)] at a position *)
  nearest : Pil.Image -> Z * Z -> Z -> Z -> Pil.pixel;
  (** the pixel [paste] leaves: destination pixel, source pixel, mask pixel *)
  blend : Pil.pixel -> Pil.pixel -> Pil.pixel -> Pil.pixel
}.

Section Scripts.
Context `{!ImageLibs}.

(** [Image.open(path)], with the decoding Pillow puts off until the pixels
    are asked for. *)
Definition Image_open (path : string) : io Pil.Image :=
  b ← read_file path;
  match pil_decode b with
  | Some im => mret im
  | None => raise UnidentifiedImageError
  end.

(** [im.save(path)], for a path in which Pillow finds the extension [.png]
    (see [splitext_ext]); it raises, and writes nothing, when the path has
    no extension. *)
Definition Image_save (im : Pil.Image) (path : string) : io unit :=
  write_file path (png_encode im).

(** [im.resize(size, resample=Image.NEAREST)] *)
Definition resize (im : Pil.Image) (size : Z * Z) : Pil.Image :=
  Pil.mkImage (Pil.im_mode im) (fst size) (snd size) (nearest im size).

(** [canvas.paste(im, (ox, oy), mask)] with [mask] of the size of [im]:
    inside the box the pixels are blended through the mask, outside the
    canvas is untouched; a mask without transparency is refused. *)
Definition paste (canvas im : Pil.Image) (pos : Z * Z) (mask : Pil.Image)
  : result Pil.Image :=
  if Pil.mask_mode (Pil.im_mode mask) then
    Ok (Pil.mkImage (Pil.im_mode canvas) (Pil.width canvas) (Pil.height canvas)
          (fun x y =>
             if Pil.inside im (x - fst pos) (y - snd pos)
             then blend (Pil.getpixel canvas x y)
                        (Pil.getpixel im (x - fst pos) (y - snd pos))
                        (Pil.getpixel mask (x - fst pos) (y - snd pos))
             else Pil.getpixel canvas x y))
  else Raise ValueError.

(** *** resizesprites.py *)

Definition input_dir : string := "sprites_extracted".
Definition centered_dir : string := "sprites_centered".

(** The body of the loop from the opened sprite to the canvas to save. *)
Definition center_sprite (sprite : Pil.Image) : result Pil.Image :=
  let resized := resize sprite (new_size (Pil.width sprite) (Pil.height sprite)) in
  match next_multiple (Pil.width resized) with
  | Raise e => Raise e
  | Ok canvas_width =>
      match next_multiple (Pil.height resized) with
      | Raise e => Raise e
      | Ok canvas_height =>
          let canvas := Pil.new Pil.RGBA (canvas_width, canvas_height) [0; 0; 0; 0] in
          let offset_x := offset canvas_width (Pil.width resized) in
          let offset_y := offset canvas_height (Pil.height resized) in
          paste canvas resized (offset_x, offset_y) resized
      end
  end.

(** [for file in os.listdir(input_dir): ...] *)
Fixpoint resize_loop (entries : list string) : io unit :=
  match entries with
  | [] => mret tt
  | file :: rest =>
      if negb (endswith file ".png") then resize_loop rest
      else
        sprite ← Image_open (path_join input_dir file);
        canvas ← lift (center_sprite sprite);
        Image_save canvas (path_join centered_dir file);;
        resize_loop rest
  end.

Definition resizesprites (entries : list string) : io unit :=
  makedirs centered_dir;;
  names ← listdir entries input_dir;
  resize_loop names;;
  print "Processed sprites saved to 'sprites_centered/'".

(** *** getsprites.py *)

Definition input_image_path : string := "sprite_sheet.png".
Definition output_dir : string := "sprites_extracted".

(** [cv2.imread(path, cv2.IMREAD_UNCHANGED)]: [None] for a file that is
    missing or cannot be decoded; it does not raise. *)
Definition imread (path : string) : io (option Cv.Mat) := fun w =>
  (Ok (files w !! path ≫= cv_decode), w).

(** [image.shape[2]]: the number of channels of a three-dimensional array. *)
Definition shape_2 (m : Cv.Mat) : result nat :=
  match Cv.shape m !! 2%nat with
  | Some c => Ok c
  | None => Raise IndexError
  end.

(** The plane that is thresholded: the alpha channel, or the grey levels. *)
Definition alpha_plane (m : Cv.Mat) (channels : nat) : Cv.Plane :=
  if (channels =? 4)%nat then Cv.channel m 3 else cvtColor_BGR2GRAY m.

Definition sprite_name (i : nat) : string :=
  "sprite_" +:+ format_02d i +:+ ".png".

(** [for i, cnt in enumerate(contours): ...], from index [i] on. *)
Fixpoint extract_loop (pil_image : Pil.Image) (i : nat) (contours : list Cv.contour)
  : io unit :=
  match contours with
  | [] => mret tt
  | cnt :: rest =>
      let '(x, y, w, h) := Cv.boundingRect cnt in
      if (w <? 10) || (h <? 10) then extract_loop pil_image (S i) rest
      else
        let sprite := Pil.crop pil_image (x, y, x + w, y + h) in
        Image_save sprite (path_join output_dir (sprite_name i));;
        extract_loop pil_image (S i) rest
  end.

(** Lines 22 to 26: threshold the plane, then trace the contours.  OpenCV
    traces arrays of 8-bit values; the properties of a whole run that need
    the tracer to answer are stated for [Cv.dtype m = Cv.uint8]. *)
Definition visibility_mask (alpha : Cv.Plane) : Cv.Plane :=
  Cv.threshold alpha 1 255.

Definition sheet_contours (m : Cv.Mat) (channels : nat) : list Cv.contour :=
  let alpha := alpha_plane m channels in
  let thresh := visibility_mask alpha in
  findContours thresh.

(** [f"Extracted {n} sprites to '{output_dir}/'"] *)
Definition summary_line (n : nat) : string :=
  "Extracted " +:+ str_of_nat n +:+ " sprites to 'sprites_extracted/'".

Definition getsprites : io unit :=
  makedirs output_dir;;
  image ← imread input_image_path;
  match image with
  | None => raise AttributeError (* [None] has no attribute [shape] *)
  | Some m =>
      channels ← lift (shape_2 m);
      let contours := sheet_contours m channels in
      pil_image ← Image_open input_image_path;
      extract_loop pil_image 0 contours;;
      print (summary_line (length contours))
  end.

(** *** Predicates of the specification *)

(** OpenCV traces the borders of the regions of non-zero pixels: a contour
    has a point, and its points lie on non-zero pixels of the array. *)
Definition traces_nonzero : Prop :=
  forall mask cnt, cnt ∈ findContours mask ->
    cnt <> [] /\ forall p, p ∈ cnt -> Cv.on_mask mask p.

(** The bounding box passes the filter of the Extractor. *)
Definition accepted (cnt : Cv.contour) : Prop :=
  let '(_, _, w, h) := Cv.boundingRect cnt in 10 <= w /\ 10 <= h.

(** The path of the sprite cut out for the contour at position [i]. *)
Definition sprite_path (i : nat) : string :=
  path_join output_dir (sprite_name i).

(** The path of the canvas saved for an entry of the input directory. *)
Definition centered_path (file : string) : string := path_join centered_dir file.

(** What the Normalizer writes for an entry of the input directory, from the
    files as they are. *)
Definition centered_file (fs : gmap string bytes) (file : string) : result bytes :=
  match fs !! path_join input_dir file with
  | None => Raise FileNotFoundError
  | Some b =>
      match pil_decode b with
      | None => Raise UnidentifiedImageError
      | Some sprite =>
          match center_sprite sprite with
          | Ok canvas => Ok (png_encode canvas)
          | Raise e => Raise e
          end
      end
  end.

End Scripts.

(** [c] is the smallest multiple of [base] that is at least [n]. *)
Definition least_multiple (base n c : Z) : Prop :=
  (base | c) /\ n <= c /\ forall m, (base | m) -> n <= m -> c <= m.

(** ** Sample libraries and sheets, to run the scripts on *)

Module Demo.

(** A 16 x 16 sheet with alpha: an opaque 12 x 12 block and a faint pixel. *)
Definition sheet_mat : Cv.Mat :=
  Cv.mkMat [16; 16; 4]%nat
    (fun r k c =>
       if (c =? 3)%nat then
         if (2 <=? r)%nat && (r <? 14)%nat && (2 <=? k)%nat && (k <? 14)%nat
         then 255
         else if (r =? 15)%nat && (k =? 15)%nat then 1 else 0
       else 0)
    Cv.uint8.

Definition blank_mat : Cv.Mat :=
  Cv.mkMat [16; 16; 4]%nat (fun _ _ _ => 0) Cv.uint8.

Definition sheet_image : Pil.Image :=
  Pil.mkImage Pil.RGBA 16 16 (fun x y => [x; y; 0; 255]).

(** Every non-zero pixel of the array, row by row. *)
Definition nonzero_points (mask : Cv.Plane) : list Cv.point :=
  r ← seq 0 (Cv.rows mask);
  k ← seq 0 (Cv.cols mask);
  if Cv.at2 mask r k =? 0 then [] else [(Z.of_nat k, Z.of_nat r)].

(** A tracer for sheets of one sprite: all its pixels as one contour. *)
Definition one_region (mask : Cv.Plane) : list Cv.contour :=
  match nonzero_points mask with
  | [] => []
  | ps => [ps]
  end.

(** The corners of the block and the lone point of the faint pixel. *)
Definition block : Cv.contour := [(2, 2); (13, 2); (13, 13); (2, 13)].
Definition speck : Cv.contour := [(15, 15)].

(** A tracer that answers a speck and then a block, whatever the array. *)
Definition speck_then_block (_ : Cv.Plane) : list Cv.contour := [speck; block].

Definition libs (tracer : Cv.Plane -> list Cv.contour) : ImageLibs := {|
  cv_decode b :=
    match b with
    | [] => None
    | c :: _ => Some (if Byte.eqb c Byte.x00 then blank_mat else sheet_mat)
    end;
  cvtColor_BGR2GRAY m := Cv.channel m 1;
  findContours := tracer;
  pil_decode b := match b with [] => None | _ => Some sheet_image end;
  png_encode im := repeat Byte.x2a (Z.to_nat (Pil.width im));
  nearest im size x y :=
    Pil.getpixel im (x * Pil.width im / fst size) (y * Pil.height im / snd size);
  blend _ src _ := src
|}.

(** The two sets of libraries used below. *)
Definition tracing : ImageLibs := libs one_region.
Definition scripted : ImageLibs := libs speck_then_block.

(** A world with nothing but the sheet, of the given content. *)
Definition sheet_world (content : bytes) : world :=
  mkWorld ∅ {[ input_image_path := content ]} [].

(** A world with no file at all. *)
Definition empty_world : world := mkWorld ∅ ∅ [].

(** A world with two extracted sprites and a file that is not a PNG. *)
Definition sprites_world : world :=
  mkWorld {[ input_dir ]}
    {[ path_join input_dir "a.png" := [Byte.x01];
       path_join input_dir "b.png" := [Byte.x02];
       path_join input_dir "notes.txt" := [] ]}
    [].

(** The 64 x 64 opaque square and the sprite of a single pixel. *)
Definition square_sprite : Pil.Image :=
  Pil.mkImage Pil.RGBA 64 64 (fun _ _ => [255; 255; 255; 255]).

Definition dot_sprite : Pil.Image :=
  Pil.mkImage Pil.RGBA 1 1 (fun _ _ => [255; 255; 255; 255]).

End Demo.

(** The test of line 34 of getsprites.py, as the loop takes it. *)
Definition kept (cnt : Cv.contour) : bool :=
  let '(_, _, w, h) := Cv.boundingRect cnt in negb ((w <? 10) || (h <? 10)).

(** The line resizesprites.py prints when it is done. *)
Definition completion_line : string := "Processed sprites saved to 'sprites_centered/'".

(** [os.path.splitext(path)[1]], by which Pillow's [save] picks the format:
    the extension runs from the last dot of the last component of the path,
    and there is none when that component has nothing but dots before it. *)
Fixpoint after_last_sep (cs acc : list ascii) : list ascii :=
  match cs with
  | [] => acc
  | c :: rest =>
      if Ascii.eqb c "/" then after_last_sep rest rest else after_last_sep rest acc
  end.

Fixpoint split_last_dot (cs : list ascii) : option (list ascii * list ascii) :=
  match cs with
  | [] => None
  | c :: rest =>
      match split_last_dot rest with
      | Some (root, ext) => Some (c :: root, ext)
      | None => if Ascii.eqb c "." then Some ([], c :: rest) else None
      end
  end.

Definition splitext_ext (path : string) : string :=
  let cs := String.list_ascii_of_string path in
  match split_last_dot (after_last_sep cs cs) with
  | Some (root, ext) =>
      if forallb (Ascii.eqb ".") root then ""%string else String.string_of_list_ascii ext
  | None => ""%string
  end.

(** ** More samples *)

Module Samples.

(** What OpenCV makes of a grey-level PNG: two dimensions, no channel axis. *)
Definition grey_mat : Cv.Mat :=
  Cv.mkMat [16; 16]%nat (fun _ _ _ => 128) Cv.uint8.

(** The sprite of the block of the sample sheet. *)
Definition block_sprite : Pil.Image := Pil.crop Demo.sheet_image (2, 2, 14, 14).

(** Libraries that read back the sprite of the block as it was written, and
    that decode a content starting with byte 7 as a grey-level image. *)
Definition lossless : ImageLibs := {|
  cv_decode b :=
    match b with
    | [] => None
    | c :: _ => Some (if Byte.eqb c Byte.x07 then grey_mat else Demo.sheet_mat)
    end;
  cvtColor_BGR2GRAY m := Cv.channel m 1;
  findContours := Demo.speck_then_block;
  pil_decode b :=
    match b with
    | [] => None
    | c :: _ => Some (if Byte.eqb c Byte.x2a then block_sprite else Demo.sheet_image)
    end;
  png_encode im := repeat Byte.x2a (Z.to_nat (Pil.width im));
  nearest im size x y :=
    Pil.getpixel im (x * Pil.width im / fst size) (y * Pil.height im / snd size);
  blend _ src _ := src
|}.

(** A directory of sprites with one that cannot be decoded. *)
Definition broken_world : world :=
  mkWorld {[ input_dir ]}
    {[ path_join input_dir "a.png" := [Byte.x01];
       path_join input_dir "bad.png" := [];
       path_join input_dir "c.png" := [Byte.x02] ]}
    [].

End Samples.

(** * Properties *)

(** ** The definitions on the scenarios of the specification *)

Example format_02d_7 : format_02d 7 = "07"%string.
Proof. reflexivity. Qed.

Example format_02d_42 : format_02d 42 = "42"%string.
Proof. reflexivity. Qed.

Example format_02d_123 : format_02d 123 = "123"%string.
Proof. reflexivity. Qed.

Example endswith_png : endswith "sprite_03.png" ".png" = true.
Proof. reflexivity. Qed.

Example endswith_txt : endswith "notes.txt" ".png" = false.
Proof. reflexivity. Qed.

Example endswith_short : endswith "png" ".png" = false.
Proof. reflexivity. Qed.

Example boundingRect_block : Cv.boundingRect Demo.block = (2, 2, 12, 12).
Proof. reflexivity. Qed.

Example true_div_1_3 :
  PyNum.true_div 1 3 = Ok (PyNum.mkFloat 6004799503160661 (- 54)).
Proof. reflexivity. Qed.

(** A 64 x 64 sprite: resized to 16 x 16, on a canvas of 32 x 32, at (8, 8). *)
Example square_scenario :
  new_size 64 64 = (16, 16) /\ next_multiple 16 = Ok 32 /\ offset 32 16 = 8.
Proof. repeat split. Qed.

Example next_multiple_33 : next_multiple 33 = Ok 64.
Proof. reflexivity. Qed.

Example next_multiple_64 : next_multiple 64 = Ok 64.
Proof. reflexivity. Qed.

(** Beyond 53 bits the quotient is rounded, and the result can fall short
    of [n]; no image is that large. *)
Example next_multiple_rounds_beyond_53_bits :
  next_multiple (2 ^ 58 + 1) = Ok (2 ^ 58).
Proof. reflexivity. Qed.

(** ** Running in the monad *)

Lemma io_bind_ok {A B : Type} (m : io A) (f : A -> io B) (w w' : world) (a : A) :
  m w = (Ok a, w') -> (m ≫= f) w = f a w'.
Proof. intros Hm. unfold mbind, io_bind. rewrite Hm. reflexivity. Qed.

Lemma io_bind_raise {A B : Type} (m : io A) (f : A -> io B) (w w' : world) (e : exn) :
  m w = (Raise e, w') -> (m ≫= f) w = (Raise e, w').
Proof. intros Hm. unfold mbind, io_bind. rewrite Hm. reflexivity. Qed.

(** ** File names *)

Lemma string_app_cons (c : Ascii.ascii) (s t : string) :
  String c s +:+ t = String c (s +:+ t).
Proof. reflexivity. Qed.

Lemma string_length_app (s t : string) :
  String.length (s +:+ t) = (String.length s + String.length t)%nat.
Proof.
  induction s as [| c s IH]; [reflexivity |].
  rewrite string_app_cons. cbn [String.length]. rewrite IH. reflexivity.
Qed.

Lemma string_app_inj_r (s1 s2 t : string) : s1 +:+ t = s2 +:+ t -> s1 = s2.
Proof.
  revert s2. induction s1 as [| c1 s1 IH]; intros [| c2 s2] Heq.
  - reflexivity.
  - apply (f_equal String.length) in Heq.
    rewrite !string_length_app in Heq. cbn [String.length] in Heq. lia.
  - apply (f_equal String.length) in Heq.
    rewrite !string_length_app in Heq. cbn [String.length] in Heq. lia.
  - rewrite !string_app_cons in Heq. injection Heq as -> Heq.
    f_equal. apply IH, Heq.
Qed.

(** Reading the digits back gives the index: the padding zero is harmless. *)
Lemma format_02d_read (n : nat) :
  Nat.of_uint <$> NilEmpty.uint_of_string (format_02d n) = Some n.
Proof.
  unfold format_02d, str_of_nat.
  destruct (String.length _ <? 2)%nat.
  - change ("0" +:+ NilEmpty.string_of_uint (Nat.to_uint n))
      with (String "0"%char (NilEmpty.string_of_uint (Nat.to_uint n))).
    cbn [NilEmpty.uint_of_string].
    rewrite NilEmpty.usu. cbn. f_equal. apply Unsigned.of_to.
  - rewrite NilEmpty.usu. cbn. f_equal. apply Unsigned.of_to.
Qed.

Lemma format_02d_inj (i j : nat) : format_02d i = format_02d j -> i = j.
Proof.
  intros Heq. pose proof (format_02d_read i) as Hi.
  rewrite Heq, format_02d_read in Hi. congruence.
Qed.

Lemma sprite_path_inj (i j : nat) : sprite_path i = sprite_path j -> i = j.
Proof.
  unfold sprite_path, path_join, sprite_name. intros Heq.
  do 3 apply String.app_inj in Heq.
  apply string_app_inj_r in Heq. apply format_02d_inj, Heq.
Qed.


(** ** True division by 32 is exact on image sizes *)

Lemma round_half_even_exact q den : 0 < den -> PyNum.round_half_even (q * den) den = q.
Proof.
  intros Hd. unfold PyNum.round_half_even.
  rewrite Z.div_mul by lia. rewrite Z.mod_mul by lia.
  destruct (Z.ltb_spec (2 * 0) den); [reflexivity | lia].
Qed.

Lemma true_div_32_exact n :
  0 < n < 2 ^ 53 ->
  PyNum.true_div n 32 =
    Ok (PyNum.mkFloat (n * 2 ^ (52 - Z.log2 n)) (Z.log2 n - 57)).
Proof.
  intros [Hpos Hlt].
  assert (Hl0 : 0 <= Z.log2 n) by apply Z.log2_nonneg.
  assert (Hl1 : Z.log2 n < 53) by (apply Z.log2_lt_pow2; lia).
  pose proof (Z.log2_spec n Hpos) as [Hlo _].
  set (l := Z.log2 n) in *.
  assert (Hp : 0 < 2 ^ (52 - l)) by (apply Z.pow_pos_nonneg; lia).
  assert (Hsplit : 2 ^ (57 - l) = 2 ^ (52 - l) * 32).
  { replace (57 - l) with ((52 - l) + 5) by lia.
    rewrite Z.pow_add_r by lia. reflexivity. }
  assert (Hbig : 2 ^ 52 <= n * 2 ^ (52 - l)).
  { replace (2 ^ 52) with (2 ^ l * 2 ^ (52 - l)).
    - apply Z.mul_le_mono_nonneg_r; lia.
    - rewrite <- Z.pow_add_r by lia. f_equal. lia. }
  unfold PyNum.true_div.
  replace (32 =? 0) with false by reflexivity.
  destruct (Z.eqb_spec n 0) as [? | _]; [lia |].
  rewrite (Z.abs_eq n) by lia. change (Z.abs 32) with 32.
  unfold PyNum.true_div_pos, PyNum.ulp_expo.
  change (Z.log2 32) with 5. fold l.
  replace (l - 5 - 52) with (l - 57) by lia.
  assert (Hnum : PyNum.scale_num n (l - 57) = n * 2 ^ (52 - l) * 32).
  { unfold PyNum.scale_num. destruct (Z.leb_spec 0 (l - 57)); [lia |].
    replace (- (l - 57)) with (57 - l) by lia. rewrite Hsplit. ring. }
  assert (Hden : PyNum.scale_den 32 (l - 57) = 32).
  { unfold PyNum.scale_den. destruct (Z.leb_spec 0 (l - 57)); [lia | reflexivity]. }
  rewrite Hnum, Hden. rewrite Z.div_mul by lia.
  destruct (Z.ltb_spec (n * 2 ^ (52 - l)) (2 ^ 52)) as [? | _]; [lia |].
  rewrite Z.max_l by lia.
  rewrite Hnum, Hden, round_half_even_exact by lia.
  destruct (Z.ltb_spec 971 (l - 57)); [lia |].
  destruct (Z.eqb_spec (l - 57) 971); [lia |].
  cbn [orb andb PyNum.mant PyNum.expo].
  rewrite (Z.sgn_pos n) by lia. change (Z.sgn 32) with 1.
  f_equal. f_equal. ring.
Qed.

Lemma next_multiple_exact n :
  0 <= n < 2 ^ 53 -> next_multiple n = Ok (32 * - ((- n) / 32)).
Proof.
  intros [Hn Hlt]. unfold next_multiple, next_multiple_base.
  destruct (Z.eq_dec n 0) as [-> | Hnz]; [reflexivity |].
  rewrite true_div_32_exact by lia.
  assert (Hl0 : 0 <= Z.log2 n) by apply Z.log2_nonneg.
  assert (Hl1 : Z.log2 n < 53) by (apply Z.log2_lt_pow2; lia).
  set (l := Z.log2 n) in *.
  unfold PyNum.ceil. cbn [PyNum.mant PyNum.expo].
  destruct (Z.leb_spec 0 (l - 57)); [lia |].
  f_equal. f_equal. f_equal.
  replace (- (l - 57)) with ((52 - l) + 5) by lia.
  rewrite Z.pow_add_r by lia. change (2 ^ 5) with 32.
  rewrite <- Z.mul_opp_l, (Z.mul_comm (- n)).
  assert (0 < 2 ^ (52 - l)) by (apply Z.pow_pos_nonneg; lia).
  apply Z.div_mul_cancel_l; lia.
Qed.

(** The ceiling of [n / 32], times 32, is the least multiple of 32 from [n] up. *)
Lemma round_up_32_least n : least_multiple 32 n (32 * - ((- n) / 32)).
Proof.
  pose proof (Z.div_mod (- n) 32 ltac:(lia)) as Hdm.
  pose proof (Z.mod_pos_bound (- n) 32 ltac:(lia)) as Hr.
  repeat split.
  - exists (- ((- n) / 32)). lia.
  - lia.
  - intros m [k ->] Hk. lia.
Qed.

Lemma round_up_32_fixed n : (32 | n) -> 32 * - ((- n) / 32) = n.
Proof.
  intros [k ->]. rewrite <- Z.mul_opp_l, Z.div_mul by lia. lia.
Qed.

Section NormalizerGeometry.
Context `{!ImageLibs}.

Lemma resized_bounds (sprite : Pil.Image) :
  Pil.valid_size sprite ->
  let resized := resize sprite (new_size (Pil.width sprite) (Pil.height sprite)) in
  1 <= Pil.width resized < 2 ^ 53 /\ 1 <= Pil.height resized < 2 ^ 53.
Proof.
  intros [[Hw0 Hw1] [Hh0 Hh1]]. cbn. unfold PyNum.floordiv.
  assert (Pil.width sprite / 4 <= Pil.width sprite) by (apply Z.div_le_upper_bound; lia).
  assert (Pil.height sprite / 4 <= Pil.height sprite) by (apply Z.div_le_upper_bound; lia).
  assert (2 ^ 31 < 2 ^ 53) by reflexivity.
  lia.
Qed.

(** With sizes an image can have, the loop body gets as far as [paste], on a
    canvas of the rounded-up size. *)
Lemma center_sprite_canvas (sprite : Pil.Image) :
  Pil.valid_size sprite ->
  let resized := resize sprite (new_size (Pil.width sprite) (Pil.height sprite)) in
  let cw := 32 * - ((- Pil.width resized) / 32) in
  let ch := 32 * - ((- Pil.height resized) / 32) in
  next_multiple (Pil.width resized) = Ok cw /\
  next_multiple (Pil.height resized) = Ok ch /\
  center_sprite sprite =
    paste (Pil.new Pil.RGBA (cw, ch) [0; 0; 0; 0]) resized
      (offset cw (Pil.width resized), offset ch (Pil.height resized)) resized.
Proof.
  intros Hv resized cw ch.
  destruct (resized_bounds sprite Hv) as [Hw Hh]. fold resized in Hw, Hh.
  assert (Hcw : next_multiple (Pil.width resized) = Ok cw)
    by (apply next_multiple_exact; lia).
  assert (Hch : next_multiple (Pil.height resized) = Ok ch)
    by (apply next_multiple_exact; lia).
  split; [exact Hcw |]. split; [exact Hch |].
  unfold center_sprite. fold resized. rewrite Hcw, Hch. reflexivity.
Qed.

Lemma paste_size (canvas im mask out : Pil.Image) (pos : Z * Z) :
  paste canvas im pos mask = Ok out ->
  Pil.width out = Pil.width canvas /\ Pil.height out = Pil.height canvas.
Proof.
  unfold paste. destruct (Pil.mask_mode (Pil.im_mode mask)); [| discriminate].
  intros [= <-]. split; reflexivity.
Qed.

Lemma paste_masked (canvas im mask : Pil.Image) (pos : Z * Z) :
  Pil.mask_mode (Pil.im_mode mask) = true ->
  exists out, paste canvas im pos mask = Ok out.
Proof. intros Hm. unfold paste. rewrite Hm. eauto. Qed.

(** C4: the resized sprite is [max(1, floor(w/4))] by [max(1, floor(h/4))],
    whatever the size of the sprite, and neither side of it is zero. *)
Theorem resized_size_quarter (sprite : Pil.Image) :
  let w := Pil.width sprite in
  let h := Pil.height sprite in
  let resized := resize sprite (new_size w h) in
  Pil.width resized = Z.max 1 (w / 4) /\
  Pil.height resized = Z.max 1 (h / 4) /\
  (forall q, 4 * q <= w < 4 * q + 4 -> Pil.width resized = Z.max 1 q) /\
  (forall q, 4 * q <= h < 4 * q + 4 -> Pil.height resized = Z.max 1 q) /\
  1 <= Pil.width resized /\ 1 <= Pil.height resized.
Proof.
  cbn. unfold PyNum.floordiv.
  assert (Hfloor : forall n q, 4 * q <= n < 4 * q + 4 -> n / 4 = q).
  { intros n q Hq. symmetry. apply Z.div_unique with (n - 4 * q); lia. }
  split; [reflexivity |]. split; [reflexivity |].
  split; [intros q Hq; rewrite (Hfloor _ q Hq); reflexivity |].
  split; [intros q Hq; rewrite (Hfloor _ q Hq); reflexivity |].
  split; lia.
Qed.

(** C5: each side of the canvas is the smallest multiple of 32 that is not
    below the same side of the resized sprite: a multiple of 32, at least
    the resized side, and the resized side itself when that is a multiple
    of 32 already. *)
Theorem canvas_size_least_multiple (sprite : Pil.Image) :
  Pil.valid_size sprite ->
  let resized := resize sprite (new_size (Pil.width sprite) (Pil.height sprite)) in
  exists cw ch,
    next_multiple (Pil.width resized) = Ok cw /\
    next_multiple (Pil.height resized) = Ok ch /\
    least_multiple 32 (Pil.width resized) cw /\
    least_multiple 32 (Pil.height resized) ch /\
    ((32 | Pil.width resized) -> cw = Pil.width resized) /\
    ((32 | Pil.height resized) -> ch = Pil.height resized) /\
    (forall canvas, center_sprite sprite = Ok canvas ->
       Pil.width canvas = cw /\ Pil.height canvas = ch) /\
    (Pil.mask_mode (Pil.im_mode sprite) = true ->
       exists canvas, center_sprite sprite = Ok canvas).
Proof.
  intros Hv resized.
  destruct (center_sprite_canvas sprite Hv) as (Hcw & Hch & Hbody).
  fold resized in Hcw, Hch, Hbody.
  eexists _, _. split; [exact Hcw |]. split; [exact Hch |].
  split; [apply round_up_32_least |]. split; [apply round_up_32_least |].
  split; [apply round_up_32_fixed |]. split; [apply round_up_32_fixed |].
  split.
  - intros canvas Hc. rewrite Hbody in Hc. apply paste_size in Hc. exact Hc.
  - intros Hm. rewrite Hbody. apply paste_masked. exact Hm.
Qed.

(** C6: with the canvas side [c] not below the resized side [r], the offset
    is [floor((c - r) / 2)], it is not negative, and twice the offset plus
    [r] is [c] or [c - 1]. *)
Theorem offset_centers (c r : Z) :
  r <= c ->
  (forall q, 2 * q <= c - r < 2 * q + 2 -> offset c r = q) /\
  2 * offset c r <= c - r < 2 * offset c r + 2 /\
  0 <= offset c r /\
  (2 * offset c r + r = c \/ 2 * offset c r + r = c - 1).
Proof.
  intros Hle. unfold offset, PyNum.floordiv.
  pose proof (Z.div_mod (c - r) 2 ltac:(lia)) as Hdm.
  pose proof (Z.mod_pos_bound (c - r) 2 ltac:(lia)) as Hr.
  split.
  { intros q Hq. symmetry. apply Z.div_unique with (c - r - 2 * q); lia. }
  split; [lia |]. split; lia.
Qed.

(** C10: both sides of the canvas are at least 32, down to a sprite of one
    pixel: the resized sides are at least 1 and are rounded up to a
    multiple of 32. *)
Theorem canvas_at_least_32 (sprite : Pil.Image) :
  Pil.valid_size sprite ->
  let resized := resize sprite (new_size (Pil.width sprite) (Pil.height sprite)) in
  exists cw ch,
    next_multiple (Pil.width resized) = Ok cw /\
    next_multiple (Pil.height resized) = Ok ch /\
    32 <= cw /\ 32 <= ch /\
    (forall canvas, center_sprite sprite = Ok canvas ->
       32 <= Pil.width canvas /\ 32 <= Pil.height canvas) /\
    (Pil.mask_mode (Pil.im_mode sprite) = true ->
       exists canvas, center_sprite sprite = Ok canvas /\
         32 <= Pil.width canvas /\ 32 <= Pil.height canvas).
Proof.
  intros Hv resized.
  destruct (center_sprite_canvas sprite Hv) as (Hcw & Hch & Hbody).
  destruct (resized_bounds sprite Hv) as [Hw Hh].
  fold resized in Hcw, Hch, Hbody, Hw, Hh.
  destruct (round_up_32_least (Pil.width resized)) as ([kw Hkw] & Hgw & _).
  destruct (round_up_32_least (Pil.height resized)) as ([kh Hkh] & Hgh & _).
  eexists _, _. split; [exact Hcw |]. split; [exact Hch |].
  assert (H32w : 32 <= 32 * - (- Pil.width resized / 32)) by lia.
  assert (H32h : 32 <= 32 * - (- Pil.height resized / 32)) by lia.
  split; [exact H32w |]. split; [exact H32h |]. split.
  - intros canvas Hc. rewrite Hbody in Hc. apply paste_size in Hc.
    destruct Hc as [-> ->]. split; [exact H32w | exact H32h].
  - intros Hm. rewrite Hbody.
    destruct (paste_masked (Pil.new Pil.RGBA
                (32 * - (- Pil.width resized / 32), 32 * - (- Pil.height resized / 32))
                [0; 0; 0; 0]) resized resized
                (offset (32 * - (- Pil.width resized / 32)) (Pil.width resized),
                 offset (32 * - (- Pil.height resized / 32)) (Pil.height resized)) Hm)
      as [out Hout].
    exists out. split; [exact Hout |].
    apply paste_size in Hout. destruct Hout as [-> ->].
    split; [exact H32w | exact H32h].
Qed.

End NormalizerGeometry.

(** ** The Extractor *)

Section ExtractorProperties.
Context `{!ImageLibs}.

Lemma extract_loop_cons (sheet : Pil.Image) (i : nat) cnt rest (w : world) :
  extract_loop sheet i (cnt :: rest) w =
    let '(x, y, bw, bh) := Cv.boundingRect cnt in
    if (bw <? 10) || (bh <? 10) then extract_loop sheet (S i) rest w
    else extract_loop sheet (S i) rest
           (mkWorld (dirs w)
              (<[ sprite_path i := png_encode (Pil.crop sheet (x, y, x + bw, y + bh)) ]>
                 (files w))
              (stdout w)).
Proof.
  cbn [extract_loop]. destruct (Cv.boundingRect cnt) as [[[x y] bw] bh].
  destruct ((bw <? 10) || (bh <? 10)); reflexivity.
Qed.

Lemma accepted_iff cnt x y bw bh :
  Cv.boundingRect cnt = (x, y, bw, bh) ->
  accepted cnt <-> (bw <? 10) || (bh <? 10) = false.
Proof.
  intros Hbb. unfold accepted. rewrite Hbb, orb_false_iff, !Z.ltb_ge. reflexivity.
Qed.

(** The loop never raises and touches nothing but files. *)
Lemma extract_loop_ok (sheet : Pil.Image) cs (i : nat) (w : world) :
  fst (extract_loop sheet i cs w) = Ok tt /\
  dirs (snd (extract_loop sheet i cs w)) = dirs w /\
  stdout (snd (extract_loop sheet i cs w)) = stdout w.
Proof.
  revert i w. induction cs as [| cnt rest IH]; intros i w; [by cbn |].
  rewrite extract_loop_cons. destruct (Cv.boundingRect cnt) as [[[x y] bw] bh].
  destruct ((bw <? 10) || (bh <? 10)); [apply IH |].
  destruct (IH (S i) (mkWorld (dirs w)
              (<[ sprite_path i := png_encode (Pil.crop sheet (x, y, x + bw, y + bh)) ]>
                 (files w)) (stdout w))) as (-> & -> & ->).
  done.
Qed.

(** A path that is the sprite path of no accepted contour keeps its file. *)
Lemma extract_loop_frame (sheet : Pil.Image) cs (i : nat) (w : world) (p : string) :
  (forall j cnt, cs !! j = Some cnt -> accepted cnt -> p <> sprite_path (i + j)) ->
  files (snd (extract_loop sheet i cs w)) !! p = files w !! p.
Proof.
  revert i w. induction cs as [| cnt rest IH]; intros i w Hp; [by cbn |].
  rewrite extract_loop_cons.
  destruct (Cv.boundingRect cnt) as [[[x y] bw] bh] eqn:Hbb.
  assert (Hrest : forall j c, rest !! j = Some c -> accepted c ->
                    p <> sprite_path (S i + j)).
  { intros j c Hj Hc. replace (S i + j)%nat with (i + S j)%nat by lia.
    apply (Hp (S j) c); done. }
  destruct ((bw <? 10) || (bh <? 10)) eqn:Hsmall.
  - apply IH, Hrest.
  - rewrite IH by exact Hrest. cbn [files].
    apply lookup_insert_ne. intros <-.
    apply (Hp 0%nat cnt); [done | by apply (accepted_iff _ _ _ _ _ Hbb) |].
    by rewrite Nat.add_0_r.
Qed.

(** The sprite of an accepted contour is on disk when the loop ends. *)
Lemma extract_loop_saved (sheet : Pil.Image) cs (i : nat) (w : world) j cnt x y bw bh :
  cs !! j = Some cnt ->
  Cv.boundingRect cnt = (x, y, bw, bh) ->
  10 <= bw -> 10 <= bh ->
  files (snd (extract_loop sheet i cs w)) !! sprite_path (i + j) =
    Some (png_encode (Pil.crop sheet (x, y, x + bw, y + bh))).
Proof.
  revert i w j. induction cs as [| c rest IH]; intros i w j Hj Hbb Hw Hh; [done |].
  destruct j as [| j].
  - injection Hj as ->. rewrite extract_loop_cons, Hbb.
    destruct (Z.ltb_spec bw 10); [lia |]. destruct (Z.ltb_spec bh 10); [lia |].
    cbn [orb]. rewrite extract_loop_frame.
    + cbn [files]. rewrite Nat.add_0_r. apply lookup_insert_eq.
    + intros j' c' _ _ Heq. apply sprite_path_inj in Heq. lia.
  - replace (i + S j)%nat with (S i + j)%nat by lia.
    rewrite extract_loop_cons. destruct (Cv.boundingRect c) as [[[x' y'] bw'] bh'].
    destruct ((bw' <? 10) || (bh' <? 10)); by apply IH.
Qed.

(** A file the loop changed is the sprite of an accepted contour, under the
    name of the position of that contour. *)
Lemma extract_loop_changed (sheet : Pil.Image) cs (i : nat) (w : world) (p : string) :
  files (snd (extract_loop sheet i cs w)) !! p <> files w !! p ->
  exists j cnt, cs !! j = Some cnt /\ accepted cnt /\ p = sprite_path (i + j).
Proof.
  revert i w. induction cs as [| cnt rest IH]; intros i w Hne; [by cbn in Hne |].
  rewrite extract_loop_cons in Hne.
  destruct (Cv.boundingRect cnt) as [[[x y] bw] bh] eqn:Hbb.
  destruct ((bw <? 10) || (bh <? 10)) eqn:Hsmall.
  - destruct (IH _ _ Hne) as (j & c & Hj & Hc & ->).
    exists (S j), c. split; [done |]. split; [done |]. f_equal. lia.
  - destruct (decide (p = sprite_path i)) as [-> | Hp].
    + exists 0%nat, cnt. split; [done |].
      split; [by apply (accepted_iff _ _ _ _ _ Hbb) |]. by rewrite Nat.add_0_r.
    + destruct (IH (S i) (mkWorld (dirs w)
              (<[ sprite_path i := png_encode (Pil.crop sheet (x, y, x + bw, y + bh)) ]>
                 (files w)) (stdout w))) as (j & c & Hj & Hc & ->).
      * cbn [files]. rewrite lookup_insert_ne by done. exact Hne.
      * exists (S j), c. split; [done |]. split; [done |]. f_equal. lia.
Qed.

Lemma Image_open_ok (path : string) (w : world) b im :
  files w !! path = Some b -> pil_decode b = Some im ->
  Image_open path w = (Ok im, w).
Proof.
  intros Hfile Hpil. unfold Image_open.
  erewrite io_bind_ok by (unfold read_file; rewrite Hfile; reflexivity).
  rewrite Hpil. reflexivity.
Qed.

(** The run on a sheet both libraries can read. *)
Lemma getsprites_readable (w : world) b m channels sheet :
  files w !! input_image_path = Some b ->
  cv_decode b = Some m ->
  Cv.shape m !! 2%nat = Some channels ->
  pil_decode b = Some sheet ->
  let contours := sheet_contours m channels in
  let w0 := mkWorld ({[ output_dir ]} ∪ dirs w) (files w) (stdout w) in
  getsprites w =
    (Ok tt, mkWorld (dirs w0) (files (snd (extract_loop sheet 0 contours w0)))
              (stdout w ++ [summary_line (length contours)])).
Proof.
  intros Hfile Hcv Hshape Hpil contours w0.
  unfold getsprites.
  erewrite io_bind_ok by (unfold makedirs; reflexivity). fold w0.
  erewrite io_bind_ok
    by (unfold imread; cbn [files w0]; rewrite Hfile; cbn; rewrite Hcv; reflexivity).
  cbv beta iota.
  erewrite io_bind_ok by (unfold lift, shape_2; rewrite Hshape; reflexivity).
  erewrite io_bind_ok by (apply Image_open_ok with b; [exact Hfile | exact Hpil]).
  fold contours.
  destruct (extract_loop_ok sheet contours 0 w0) as (Hr & Hd & Ho).
  erewrite io_bind_ok by (apply injective_projections; [exact Hr | reflexivity]).
  cbv beta. unfold print. fold (snd (extract_loop sheet 0 contours w0)).
  rewrite Hd, Ho. reflexivity.
Qed.

Lemma visibility_mask_zero (alpha : Cv.Plane) (r k : nat) :
  Cv.at2 alpha r k <= 1 -> Cv.at2 (visibility_mask alpha) r k = 0.
Proof.
  intros Hle. unfold visibility_mask, Cv.threshold. cbn [Cv.at2].
  destruct (Z.ltb_spec 1 (Cv.at2 alpha r k)); [lia | reflexivity].
Qed.

(** C1, as the code has it: a pixel of the mask is 255 exactly where the
    thresholded plane is above 1 (2 or more), and 0 everywhere else; a
    value of 1 is not kept. *)
Theorem visibility_mask_above_1 (alpha : Cv.Plane) (r k : nat) :
  (Cv.at2 (visibility_mask alpha) r k = 255 <-> 1 < Cv.at2 alpha r k) /\
  (Cv.at2 (visibility_mask alpha) r k = 0 <-> Cv.at2 alpha r k <= 1) /\
  Cv.rows (visibility_mask alpha) = Cv.rows alpha /\
  Cv.cols (visibility_mask alpha) = Cv.cols alpha.
Proof.
  unfold visibility_mask, Cv.threshold. cbn [Cv.at2 Cv.rows Cv.cols].
  destruct (Z.ltb_spec 1 (Cv.at2 alpha r k)); repeat split; intros; try done; lia.
Qed.

(** C2: the sprite of a contour whose box is at least 10 by 10 is on disk
    when the run ends, under the name of the position of the contour; it
    is the crop of the sheet at the box: as wide and as high as the box,
    of the mode of the sheet, and pixel for pixel the sheet, every band. *)
Theorem accepted_contour_saved (w : world) b m channels sheet i cnt x y bw bh :
  files w !! input_image_path = Some b ->
  cv_decode b = Some m ->
  Cv.shape m !! 2%nat = Some channels ->
  pil_decode b = Some sheet ->
  sheet_contours m channels !! i = Some cnt ->
  Cv.boundingRect cnt = (x, y, bw, bh) ->
  10 <= bw -> 10 <= bh ->
  let sprite := Pil.crop sheet (x, y, x + bw, y + bh) in
  fst (getsprites w) = Ok tt /\
  files (snd (getsprites w)) !! sprite_path i = Some (png_encode sprite) /\
  Pil.width sprite = bw /\ Pil.height sprite = bh /\
  Pil.im_mode sprite = Pil.im_mode sheet /\
  forall u v, 0 <= u < bw -> 0 <= v < bh ->
    0 <= x + u < Pil.width sheet -> 0 <= y + v < Pil.height sheet ->
    Pil.getpixel sprite u v = Pil.getpixel sheet (x + u) (y + v).
Proof.
  intros Hfile Hcv Hshape Hpil Hi Hbb Hw Hh sprite.
  rewrite (getsprites_readable w b m channels sheet Hfile Hcv Hshape Hpil).
  cbn [fst snd files]. split; [reflexivity |]. split.
  { apply (extract_loop_saved sheet _ 0 _ i cnt x y bw bh); assumption. }
  unfold sprite, Pil.crop. cbn [Pil.width Pil.height Pil.im_mode Pil.getpixel].
  split; [lia |]. split; [lia |]. split; [reflexivity |].
  intros u v Hu Hv Hx Hy. unfold Pil.inside.
  destruct (Z.leb_spec 0 (x + u)); [| lia].
  destruct (Z.ltb_spec (x + u) (Pil.width sheet)); [| lia].
  destruct (Z.leb_spec 0 (y + v)); [| lia].
  destruct (Z.ltb_spec (y + v) (Pil.height sheet)); [| lia].
  reflexivity.
Qed.

(** C3: a contour whose box is narrower or lower than 10 leaves the file
    at the name of its position as it was, so no sprite is written for it;
    the files the run does write are the sprites of the accepted contours,
    each under [sprite_{i:02d}.png] with [i] the position of its contour
    among all the contours, skipped ones counted. *)
Theorem rejected_contour_skipped (w : world) b m channels sheet :
  files w !! input_image_path = Some b ->
  cv_decode b = Some m ->
  Cv.shape m !! 2%nat = Some channels ->
  pil_decode b = Some sheet ->
  let contours := sheet_contours m channels in
  let after := files (snd (getsprites w)) in
  (forall i cnt x y bw bh,
     contours !! i = Some cnt -> Cv.boundingRect cnt = (x, y, bw, bh) ->
     bw < 10 \/ bh < 10 ->
     after !! sprite_path i = files w !! sprite_path i) /\
  (forall p, after !! p <> files w !! p ->
     exists i cnt, contours !! i = Some cnt /\ accepted cnt /\
       p = "sprites_extracted/sprite_" +:+ format_02d i +:+ ".png") /\
  (forall i cnt, contours !! i = Some cnt -> accepted cnt ->
     is_Some (after !! ("sprites_extracted/sprite_" +:+ format_02d i +:+ ".png"))).
Proof.
  intros Hfile Hcv Hshape Hpil contours after. unfold after.
  rewrite (getsprites_readable w b m channels sheet Hfile Hcv Hshape Hpil).
  fold contours. cbn [snd files]. split; [| split].
  - intros i cnt x y bw bh Hi Hbb Hsmall.
    rewrite extract_loop_frame; [reflexivity |].
    intros j c Hj Hc Heq. apply sprite_path_inj in Heq. cbn in Heq. subst j.
    rewrite Hi in Hj. injection Hj as <-.
    apply (accepted_iff _ _ _ _ _ Hbb) in Hc. apply orb_false_iff in Hc.
    rewrite !Z.ltb_ge in Hc. lia.
  - intros p Hne.
    destruct (extract_loop_changed sheet contours 0
                (mkWorld ({[ output_dir ]} ∪ dirs w) (files w) (stdout w)) p Hne)
      as (j & c & Hj & Hc & ->).
    exists j, c. done.
  - intros i cnt Hi Hc.
    destruct (Cv.boundingRect cnt) as [[[x y] bw] bh] eqn:Hbb.
    assert (Hacc : 10 <= bw /\ 10 <= bh) by (unfold accepted in Hc; by rewrite Hbb in Hc).
    change ("sprites_extracted/sprite_" +:+ format_02d i +:+ ".png")
      with (sprite_path (0 + i)).
    erewrite extract_loop_saved; [done | exact Hi | exact Hbb | lia | lia].
Qed.

(** C8: on an 8-bit sheet with no visible pixel (no pixel of the thresholded
    plane above 0, nor even above the threshold 1) no contour is found, no
    file is written, and the summary line counts 0. *)
Theorem blank_sheet_no_sprites (w : world) b m channels sheet :
  traces_nonzero ->
  files w !! input_image_path = Some b ->
  cv_decode b = Some m ->
  Cv.dtype m = Cv.uint8 ->
  Cv.shape m !! 2%nat = Some channels ->
  pil_decode b = Some sheet ->
  (forall r k, (r < Cv.rows (alpha_plane m channels))%nat ->
               (k < Cv.cols (alpha_plane m channels))%nat ->
               Cv.at2 (alpha_plane m channels) r k <= 1) ->
  sheet_contours m channels = [] /\
  getsprites w =
    (Ok tt, mkWorld ({[ output_dir ]} ∪ dirs w) (files w)
              (stdout w ++ ["Extracted 0 sprites to 'sprites_extracted/'"])).
Proof.
  intros Htrace Hfile Hcv _ Hshape Hpil Hblank.
  assert (Hnone : sheet_contours m channels = []).
  { destruct (sheet_contours m channels) as [| cnt rest] eqn:Hcs; [reflexivity |].
    exfalso. unfold sheet_contours in Hcs.
    destruct (Htrace (visibility_mask (alpha_plane m channels)) cnt) as [Hne Hon].
    { rewrite Hcs. apply list_elem_of_here. }
    destruct cnt as [| p ps]; [done |].
    destruct (Hon p (list_elem_of_here _ _)) as (Hx & Hy & Hnz).
    apply Hnz. apply (visibility_mask_zero (alpha_plane m channels)).
    apply Hblank.
    - cbn in Hy. lia.
    - cbn in Hx. lia. }
  split; [exact Hnone |].
  rewrite (getsprites_readable w b m channels sheet Hfile Hcv Hshape Hpil).
  rewrite Hnone. reflexivity.
Qed.

(** C9: when the sheet is missing or one of the two libraries cannot decode
    it, the run ends on an uncaught exception (an [AttributeError] when it is
    OpenCV that cannot read it), no file is written, and the output directory
    is there. *)
Theorem unreadable_sheet_aborts (w : world) :
  files w !! input_image_path ≫= cv_decode = None \/
  files w !! input_image_path ≫= pil_decode = None ->
  exists e,
    getsprites w = (Raise e, mkWorld ({[ output_dir ]} ∪ dirs w) (files w) (stdout w)) /\
    output_dir ∈ dirs (snd (getsprites w)) /\
    files (snd (getsprites w)) = files w /\
    (files w !! input_image_path ≫= cv_decode = None -> e = AttributeError).
Proof.
  intros Hbad.
  set (w0 := mkWorld ({[ output_dir ]} ∪ dirs w) (files w) (stdout w)).
  assert (Hgoal : exists e, getsprites w = (Raise e, w0) /\
            (files w !! input_image_path ≫= cv_decode = None -> e = AttributeError)).
  { unfold getsprites.
    erewrite io_bind_ok by (unfold makedirs; reflexivity). fold w0.
    erewrite io_bind_ok by (unfold imread; reflexivity). cbn [files w0].
    destruct (files w !! input_image_path ≫= cv_decode) as [m |] eqn:Hcv.
    - destruct Hbad as [? | Hpil]; [done |].
      destruct (files w !! input_image_path) as [b |] eqn:Hfile; [| done].
      cbn in Hcv, Hpil.
      destruct (Cv.shape m !! 2%nat) as [channels |] eqn:Hshape.
      + exists UnidentifiedImageError. split; [| done].
        erewrite io_bind_ok by (unfold lift, shape_2; rewrite Hshape; reflexivity).
        apply io_bind_raise. unfold Image_open.
        erewrite io_bind_ok by (unfold read_file; cbn [files w0]; rewrite Hfile; reflexivity).
        rewrite Hpil. reflexivity.
      + exists IndexError. split; [| done].
        apply io_bind_raise. unfold lift, shape_2. rewrite Hshape. reflexivity.
    - exists AttributeError. split; reflexivity. }
  destruct Hgoal as (e & Hrun & He). exists e. rewrite Hrun. cbn [snd dirs files w0].
  split; [reflexivity |]. split; [apply elem_of_union_l, elem_of_singleton; reflexivity |].
  split; [reflexivity | exact He].
Qed.

End ExtractorProperties.

(** ** The Normalizer *)

Lemma makedirs_twice (d : string) (ds : gset string) :
  {[ d ]} ∪ ({[ d ]} ∪ ds) = {[ d ]} ∪ ds.
Proof. rewrite (assoc_L (∪)). by rewrite (idemp_L (∪) {[ d ]}). Qed.

Section NormalizerRuns.
Context `{!ImageLibs}.

Lemma centered_path_inj (f g : string) : centered_path f = centered_path g -> f = g.
Proof.
  unfold centered_path, path_join. intros Heq. by do 2 apply String.app_inj in Heq.
Qed.

(** The Normalizer reads in one directory and writes in another. *)
Lemma centered_path_not_input (f g : string) :
  centered_path f <> path_join input_dir g.
Proof.
  unfold centered_path, path_join, centered_dir, input_dir. intros Heq.
  cbv [String.append] in Heq. discriminate Heq.
Qed.

Lemma centered_file_insert (fs : gmap string bytes) (f g : string) (b : bytes) :
  centered_file (<[ centered_path f := b ]> fs) g = centered_file fs g.
Proof.
  unfold centered_file. rewrite lookup_insert_ne; [reflexivity |].
  apply centered_path_not_input.
Qed.

Lemma resize_loop_cons (file : string) rest (w : world) :
  resize_loop (file :: rest) w =
    if negb (endswith file ".png") then resize_loop rest w
    else
      match centered_file (files w) file with
      | Ok b => resize_loop rest
                  (mkWorld (dirs w) (<[ centered_path file := b ]> (files w)) (stdout w))
      | Raise e => (Raise e, w)
      end.
Proof.
  cbn [resize_loop]. destruct (negb (endswith file ".png")); [reflexivity |].
  unfold centered_file, Image_open, read_file, mbind, io_bind, lift.
  destruct (files w !! path_join input_dir file) as [b |]; [| reflexivity].
  destruct (pil_decode b) as [sprite |]; [| reflexivity].
  unfold mret, io_ret. destruct (center_sprite sprite); reflexivity.
Qed.

(** The loop passes directories and output through. *)
Lemma resize_loop_passes es (w : world) :
  dirs (snd (resize_loop es w)) = dirs w /\
  stdout (snd (resize_loop es w)) = stdout w.
Proof.
  revert w. induction es as [| f rest IH]; intros w; [done |].
  rewrite resize_loop_cons. destruct (negb (endswith f ".png")); [apply IH |].
  destruct (centered_file (files w) f) as [b | e]; [| done].
  destruct (IH (mkWorld (dirs w) (<[ centered_path f := b ]> (files w)) (stdout w)))
    as [-> ->]. done.
Qed.

(** It is a function of the files alone. *)
Lemma resize_loop_files es (w w' : world) :
  files w = files w' ->
  fst (resize_loop es w) = fst (resize_loop es w') /\
  files (snd (resize_loop es w)) = files (snd (resize_loop es w')).
Proof.
  revert w w'. induction es as [| f rest IH]; intros w w' Hfs; [done |].
  rewrite !resize_loop_cons, <- Hfs.
  destruct (negb (endswith f ".png")); [by apply IH |].
  destruct (centered_file (files w) f) as [b | e]; [| done].
  apply IH. cbn [files]. by rewrite Hfs.
Qed.

(** A path that is the output path of no PNG entry keeps its file. *)
Lemma resize_loop_frame es (w : world) (p : string) :
  (forall f, f ∈ es -> endswith f ".png" = true -> p <> centered_path f) ->
  files (snd (resize_loop es w)) !! p = files w !! p.
Proof.
  revert w. induction es as [| f rest IH]; intros w Hp; [done |].
  assert (Hrest : forall g, g ∈ rest -> endswith g ".png" = true -> p <> centered_path g).
  { intros g Hg. apply Hp. by apply list_elem_of_further. }
  rewrite resize_loop_cons. destruct (endswith f ".png") eqn:Hpng; cbn [negb].
  - destruct (centered_file (files w) f) as [b | e]; [| done].
    rewrite IH by exact Hrest. cbn [files]. apply lookup_insert_ne.
    intros Heq. symmetry in Heq. revert Heq. apply Hp; [apply list_elem_of_here | done].
  - by apply IH.
Qed.

(** The input files are as they were. *)
Lemma resize_loop_inputs es (w : world) (g : string) :
  centered_file (files (snd (resize_loop es w))) g = centered_file (files w) g.
Proof.
  unfold centered_file. rewrite resize_loop_frame; [reflexivity |].
  intros f _ _ Heq. symmetry in Heq. by apply centered_path_not_input in Heq.
Qed.

(** After a run without exception every PNG entry has its output on disk. *)
Lemma resize_loop_saved es (w : world) (f : string) :
  fst (resize_loop es w) = Ok tt ->
  f ∈ es -> endswith f ".png" = true ->
  exists b, centered_file (files w) f = Ok b /\
            files (snd (resize_loop es w)) !! centered_path f = Some b.
Proof.
  revert w. induction es as [| f0 rest IH]; intros w Hok Hf Hpng.
  { by apply elem_of_nil in Hf. }
  rewrite resize_loop_cons in Hok |- *.
  destruct (endswith f0 ".png") eqn:Hpng0; cbn [negb] in *.
  - destruct (centered_file (files w) f0) as [b0 | e] eqn:Hc0; [| done].
    destruct (decide (f ∈ rest)) as [Hin | Hout].
    + destruct (IH _ Hok Hin Hpng) as (b & Hb & Hlook).
      exists b. split; [| exact Hlook].
      cbn [files] in Hb. by rewrite centered_file_insert in Hb.
    + apply elem_of_cons in Hf as [-> | ?]; [| done].
      exists b0. split; [exact Hc0 |].
      rewrite resize_loop_frame.
      * cbn [files]. apply lookup_insert_eq.
      * intros g Hg _ Heq. apply centered_path_inj in Heq. by subst g.
  - apply elem_of_cons in Hf as [-> | Hin]; [congruence |].
    by apply IH.
Qed.

(** Entries that all can be centred make a run without exception. *)
Lemma resize_loop_succeeds es (w : world) :
  (forall f, f ∈ es -> endswith f ".png" = true ->
     exists b, centered_file (files w) f = Ok b) ->
  fst (resize_loop es w) = Ok tt.
Proof.
  revert w. induction es as [| f0 rest IH]; intros w Hall; [done |].
  rewrite resize_loop_cons. destruct (endswith f0 ".png") eqn:Hpng0; cbn [negb].
  - destruct (Hall f0 (list_elem_of_here _ _) Hpng0) as [b0 ->].
    apply IH. intros f Hf Hpng. cbn [files]. rewrite centered_file_insert.
    apply Hall; [by apply list_elem_of_further | done].
  - apply IH. intros f Hf. apply Hall. by apply list_elem_of_further.
Qed.

Lemma resize_loop_app pre post (w : world) :
  resize_loop (pre ++ post) w =
    match resize_loop pre w with
    | (Ok _, w1) => resize_loop post w1
    | (Raise e, w1) => (Raise e, w1)
    end.
Proof.
  revert w. induction pre as [| f rest IH]; intros w; [done |].
  rewrite <- app_comm_cons, !resize_loop_cons.
  destruct (negb (endswith f ".png")); [apply IH |].
  destruct (centered_file (files w) f); [apply IH | reflexivity].
Qed.

(** A run that raises stops at the first entry that cannot be centred. *)
Lemma resize_loop_raises es (w : world) (e : exn) :
  fst (resize_loop es w) = Raise e ->
  exists pre f post,
    es = pre ++ f :: post /\
    fst (resize_loop pre w) = Ok tt /\
    endswith f ".png" = true /\
    centered_file (files w) f = Raise e /\
    resize_loop es w = (Raise e, snd (resize_loop pre w)).
Proof.
  revert w. induction es as [| f0 rest IH]; intros w Hr; [done |].
  rewrite resize_loop_cons in Hr.
  destruct (endswith f0 ".png") eqn:Hpng0; cbn [negb] in Hr.
  - destruct (centered_file (files w) f0) as [b0 | e0] eqn:Hc0.
    + destruct (IH _ Hr) as (pre & f & post & -> & Hpre & Hpng & Hc & Hrun).
      exists (f0 :: pre), f, post. split; [done |].
      rewrite !resize_loop_cons, Hpng0, Hc0. cbn [negb].
      split; [exact Hpre |]. split; [exact Hpng |].
      split; [| exact Hrun].
      cbn [files] in Hc. by rewrite centered_file_insert in Hc.
    + injection Hr as ->. exists [], f0, rest.
      split; [done |]. split; [done |]. split; [done |]. split; [done |].
      rewrite resize_loop_cons, Hpng0, Hc0. reflexivity.
  - destruct (IH _ Hr) as (pre & f & post & -> & Hpre & Hpng & Hc & Hrun).
    exists (f0 :: pre), f, post. split; [done |].
    rewrite !resize_loop_cons, Hpng0. cbn [negb]. done.
Qed.

(** After a run without exception, a run over entries of the first one, in
    any order, raises nothing and rewrites every file as it is. *)
Lemma resize_loop_again es1 es2 (w w2 : world) :
  fst (resize_loop es1 w) = Ok tt ->
  (forall f, f ∈ es2 -> f ∈ es1) ->
  files w2 = files (snd (resize_loop es1 w)) ->
  fst (resize_loop es2 w2) = Ok tt /\
  files (snd (resize_loop es2 w2)) = files w2.
Proof.
  intros Hok Hsub Hfs.
  assert (Hsame : forall g, centered_file (files w2) g = centered_file (files w) g).
  { intros g. rewrite Hfs. apply resize_loop_inputs. }
  assert (Hok2 : fst (resize_loop es2 w2) = Ok tt).
  { apply resize_loop_succeeds. intros f Hf Hpng.
    destruct (resize_loop_saved es1 w f Hok (Hsub f Hf) Hpng) as (b & Hb & _).
    exists b. by rewrite Hsame. }
  split; [exact Hok2 |]. apply map_eq. intros p.
  destruct (decide (Exists (fun f => endswith f ".png" = true /\ p = centered_path f) es2))
    as [Hex | Hnex].
  - apply Exists_exists in Hex as (f & Hf & Hpng & ->).
    destruct (resize_loop_saved es2 w2 f Hok2 Hf Hpng) as (b2 & Hb2 & ->).
    destruct (resize_loop_saved es1 w f Hok (Hsub f Hf) Hpng) as (b1 & Hb1 & Hl1).
    rewrite Hfs, Hl1. rewrite Hsame, Hb1 in Hb2. congruence.
  - apply resize_loop_frame. intros f Hf Hpng ->. apply Hnex.
    apply Exists_exists. by exists f.
Qed.

(** The same entries in the same order: the second run ends as the first. *)
Lemma resize_loop_twice es (w w2 : world) :
  files w2 = files (snd (resize_loop es w)) ->
  fst (resize_loop es w2) = fst (resize_loop es w) /\
  files (snd (resize_loop es w2)) = files w2.
Proof.
  intros Hfs. destruct (fst (resize_loop es w)) as [[] | e] eqn:Hr.
  - by apply (resize_loop_again es es w w2).
  - destruct (resize_loop_raises es w e Hr) as (pre & f & post & Hes & Hpre & Hpng & Hc & Hrun).
    rewrite Hrun in Hfs. cbn [snd] in Hfs.
    destruct (resize_loop_again pre pre w w2 Hpre (fun _ H => H) Hfs) as [Hok2 Hfs2].
    rewrite Hes, resize_loop_app.
    destruct (resize_loop pre w2) as [r2 w3]. cbn [fst snd] in Hok2, Hfs2. subst r2.
    rewrite resize_loop_cons, Hpng. cbn [negb].
    rewrite Hfs2, Hfs, resize_loop_inputs, Hc. cbn [fst snd].
    split; [reflexivity | congruence].
Qed.

(** What a run of the whole script leaves, in terms of its loop. *)
Lemma resizesprites_run es (w : world) :
  let w0 := mkWorld ({[ centered_dir ]} ∪ dirs w) (files w) (stdout w) in
  dirs (snd (resizesprites es w)) = dirs w0 /\
  (input_dir ∈ dirs w0 ->
     fst (resizesprites es w) = fst (resize_loop es w0) /\
     files (snd (resizesprites es w)) = files (snd (resize_loop es w0))) /\
  (input_dir ∉ dirs w0 ->
     fst (resizesprites es w) = Raise FileNotFoundError /\
     files (snd (resizesprites es w)) = files w).
Proof.
  intros w0. unfold resizesprites.
  erewrite io_bind_ok by (unfold makedirs; reflexivity). fold w0.
  destruct (decide (input_dir ∈ dirs w0)) as [Hin | Hout].
  - erewrite io_bind_ok by (unfold listdir; rewrite decide_True by exact Hin; reflexivity).
    destruct (resize_loop_passes es w0) as [Hd Ho].
    destruct (resize_loop es w0) as [[[] | e] wl] eqn:Hloop; cbn [fst snd] in *.
    + erewrite io_bind_ok by exact Hloop. unfold print. cbn [fst snd dirs files].
      split; [exact Hd |]. split; [done |]. intros Hout. done.
    + erewrite io_bind_raise by exact Hloop. cbn [fst snd].
      split; [exact Hd |]. split; [done |]. intros Hout. done.
  - erewrite io_bind_raise by (unfold listdir; rewrite decide_False by exact Hout; reflexivity).
    cbn [fst snd]. split; [reflexivity |]. split; [done |]. done.
Qed.

(** C7: a second run over the same input directory and the same output
    directory ends as the first and leaves every file byte for byte as the
    first left it: with the entries listed in the same order always, and in
    any order when the first run raised nothing.  What a run without
    exception leaves for an entry is a function of the content of that
    entry. *)
Theorem normalizer_idempotent (es1 es2 : list string) (w : world) :
  es2 = es1 \/ (fst (resizesprites es1 w) = Ok tt /\ es2 ≡ₚ es1) ->
  let w1 := snd (resizesprites es1 w) in
  fst (resizesprites es2 w1) = fst (resizesprites es1 w) /\
  files (snd (resizesprites es2 w1)) = files w1 /\
  dirs (snd (resizesprites es2 w1)) = dirs w1 /\
  (fst (resizesprites es1 w) = Ok tt ->
   forall f, f ∈ es1 -> endswith f ".png" = true ->
     exists b, centered_file (files w) f = Ok b /\
               files w1 !! path_join centered_dir f = Some b).
Proof.
  intros Hes w1.
  set (w0 := mkWorld ({[ centered_dir ]} ∪ dirs w) (files w) (stdout w)).
  destruct (resizesprites_run es1 w) as (Hd1 & Hin1 & Hout1). fold w0 in Hd1, Hin1, Hout1.
  fold w1 in Hd1.
  set (w0' := mkWorld ({[ centered_dir ]} ∪ dirs w1) (files w1) (stdout w1)).
  destruct (resizesprites_run es2 w1) as (Hd2 & Hin2 & Hout2). fold w0' in Hd2, Hin2, Hout2.
  assert (Hdirs : dirs w0' = dirs w1).
  { cbn [dirs w0']. rewrite Hd1. cbn [dirs w0]. apply makedirs_twice. }
  destruct (decide (input_dir ∈ dirs w0)) as [Hin | Hout].
  - destruct (Hin1 Hin) as [Hr1 Hf1]. fold w1 in Hf1.
    assert (Hin' : input_dir ∈ dirs w0') by (rewrite Hdirs, Hd1; exact Hin).
    destruct (Hin2 Hin') as [Hr2 Hf2].
    assert (Hfs : files w0' = files (snd (resize_loop es1 w0))) by exact Hf1.
    assert (Hloop : fst (resize_loop es2 w0') = fst (resize_loop es1 w0) /\
                    files (snd (resize_loop es2 w0')) = files w0').
    { destruct Hes as [-> | [Hok Hperm]].
      - apply resize_loop_twice, Hfs.
      - rewrite Hr1 in Hok. rewrite Hok.
        apply (resize_loop_again es1 es2 w0 w0' Hok); [| exact Hfs].
        intros f Hf. by rewrite <- Hperm. }
    destruct Hloop as [Hl1 Hl2].
    split; [congruence |]. split; [by rewrite Hf2, Hl2 |]. split; [congruence |].
    intros Hok f Hf Hpng. rewrite Hr1 in Hok.
    destruct (resize_loop_saved es1 w0 f Hok Hf Hpng) as (b & Hb & Hlook).
    exists b. split; [exact Hb |]. rewrite Hf1. exact Hlook.
  - destruct (Hout1 Hout) as [Hr1 Hf1]. fold w1 in Hf1.
    assert (Hout' : input_dir ∉ dirs w0') by (rewrite Hdirs, Hd1; exact Hout).
    destruct (Hout2 Hout') as [Hr2 Hf2].
    split; [congruence |]. split; [exact Hf2 |]. split; [congruence |].
    intros Hok. congruence.
Qed.
End NormalizerRuns.

(** ** Runs on the sample sheets *)

Lemma one_region_traces : @traces_nonzero Demo.tracing.
Proof.
  intros mask cnt Hin. cbn [findContours Demo.tracing Demo.libs] in Hin.
  unfold Demo.one_region in Hin.
  destruct (Demo.nonzero_points mask) as [| p ps] eqn:Hps.
  { by apply elem_of_nil in Hin. }
  apply list_elem_of_singleton in Hin as ->. split; [done |].
  intros q Hq. rewrite <- Hps in Hq. unfold Demo.nonzero_points in Hq.
  apply list_elem_of_bind in Hq as (r & Hq & Hr).
  apply list_elem_of_bind in Hq as (k & Hq & Hk).
  apply elem_of_seq in Hr. apply elem_of_seq in Hk.
  destruct (Z.eqb_spec (Cv.at2 mask r k) 0) as [| Hnz].
  { by apply elem_of_nil in Hq. }
  apply list_elem_of_singleton in Hq as ->. unfold Cv.on_mask. cbn [fst snd].
  rewrite !Nat2Z.id. split; [lia |]. split; [lia | exact Hnz].
Qed.

(** C1 fails at alpha 1: the faint pixel of the sample sheet has alpha 1,
    which is above 0, and the mask leaves it at 0. *)
Lemma visibility_mask_drops_alpha_1 :
  Cv.at2 (@alpha_plane Demo.tracing Demo.sheet_mat 4) 15 15 = 1 /\
  0 < Cv.at2 (@alpha_plane Demo.tracing Demo.sheet_mat 4) 15 15 /\
  Cv.at2 (visibility_mask (@alpha_plane Demo.tracing Demo.sheet_mat 4)) 15 15 = 0 /\
  ~ (Cv.at2 (visibility_mask (@alpha_plane Demo.tracing Demo.sheet_mat 4)) 15 15 = 255
     <-> 0 < Cv.at2 (@alpha_plane Demo.tracing Demo.sheet_mat 4) 15 15).
Proof.
  split; [reflexivity |]. split; [reflexivity |]. split; [reflexivity |].
  intros [_ Hvis]. specialize (Hvis eq_refl). discriminate Hvis.
Qed.

Lemma accepted_contour_saved_witness :
  files (snd (@getsprites Demo.scripted (Demo.sheet_world [Byte.x01])))
    !! sprite_path 1 =
  Some (@png_encode Demo.scripted (Pil.crop Demo.sheet_image (2, 2, 14, 14))).
Proof.
  refine (proj1 (proj2 (@accepted_contour_saved Demo.scripted
    (Demo.sheet_world [Byte.x01]) [Byte.x01] Demo.sheet_mat 4%nat Demo.sheet_image
    1%nat Demo.block 2 2 12 12 _ _ _ _ _ _ _ _))).
  - vm_compute. reflexivity.
  - reflexivity.
  - reflexivity.
  - reflexivity.
  - reflexivity.
  - reflexivity.
  - lia.
  - lia.
Defined.

Lemma rejected_contour_skipped_witness :
  files (snd (@getsprites Demo.scripted (Demo.sheet_world [Byte.x01])))
    !! sprite_path 0 = None.
Proof.
  refine (eq_trans (proj1 (@rejected_contour_skipped Demo.scripted
    (Demo.sheet_world [Byte.x01]) [Byte.x01] Demo.sheet_mat 4%nat Demo.sheet_image
    _ _ _ _) 0%nat Demo.speck 15 15 1 1 _ _ _) _).
  - vm_compute. reflexivity.
  - reflexivity.
  - reflexivity.
  - reflexivity.
  - reflexivity.
  - reflexivity.
  - left. lia.
  - vm_compute. reflexivity.
Defined.

Lemma canvas_size_least_multiple_witness :
  exists cw ch,
    next_multiple 16 = Ok cw /\ next_multiple 16 = Ok ch /\
    least_multiple 32 16 cw /\ least_multiple 32 16 ch.
Proof.
  assert (Hv : Pil.valid_size Demo.square_sprite) by (split; cbn; lia).
  destruct (@canvas_size_least_multiple Demo.tracing Demo.square_sprite Hv)
    as (cw & ch & Hcw & Hch & Hlw & Hlh & _).
  exists cw, ch. split; [exact Hcw |]. split; [exact Hch |].
  split; [exact Hlw | exact Hlh].
Defined.

Lemma offset_centers_witness : offset 32 16 = 8.
Proof.
  assert (Hle : 16 <= 32) by lia.
  apply (proj1 (offset_centers 32 16 Hle)). lia.
Defined.

Lemma normalizer_idempotent_witness :
  fst (@resizesprites Demo.tracing ["b.png"; "notes.txt"; "a.png"]%string
         (snd (@resizesprites Demo.tracing ["a.png"; "notes.txt"; "b.png"]%string
                 Demo.sprites_world))) = Ok tt /\
  files (snd (@resizesprites Demo.tracing ["b.png"; "notes.txt"; "a.png"]%string
                (snd (@resizesprites Demo.tracing ["a.png"; "notes.txt"; "b.png"]%string
                        Demo.sprites_world)))) =
  files (snd (@resizesprites Demo.tracing ["a.png"; "notes.txt"; "b.png"]%string
                Demo.sprites_world)).
Proof.
  assert (Hok : fst (@resizesprites Demo.tracing ["a.png"; "notes.txt"; "b.png"]%string
                       Demo.sprites_world) = Ok tt) by (vm_compute; reflexivity).
  assert (Hperm : ["b.png"; "notes.txt"; "a.png"]%string ≡ₚ
                  ["a.png"; "notes.txt"; "b.png"]%string).
  { etrans; [apply perm_swap |]. etrans; [apply perm_skip, perm_swap |].
    apply perm_swap. }
  destruct (@normalizer_idempotent Demo.tracing
              ["a.png"; "notes.txt"; "b.png"]%string
              ["b.png"; "notes.txt"; "a.png"]%string
              Demo.sprites_world (or_intror (conj Hok Hperm)))
    as (Hr & Hf & _).
  split; [| exact Hf]. rewrite <- Hok. exact Hr.
Defined.

Lemma blank_sheet_no_sprites_witness :
  @getsprites Demo.tracing (Demo.sheet_world [Byte.x00]) =
    (Ok tt, mkWorld ({[ output_dir ]} ∪ ∅) {[ input_image_path := [Byte.x00] ]}
              ["Extracted 0 sprites to 'sprites_extracted/'"%string]).
Proof.
  refine (proj2 (@blank_sheet_no_sprites Demo.tracing
    (Demo.sheet_world [Byte.x00]) [Byte.x00] Demo.blank_mat 4%nat Demo.sheet_image
    one_region_traces _ _ _ _ _ _)).
  - vm_compute. reflexivity.
  - reflexivity.
  - reflexivity.
  - reflexivity.
  - reflexivity.
  - intros r k _ _. cbn. lia.
Defined.

Lemma unreadable_sheet_aborts_witness :
  exists e,
    @getsprites Demo.tracing Demo.empty_world =
      (Raise e, mkWorld ({[ output_dir ]} ∪ ∅) ∅ []) /\ e = AttributeError.
Proof.
  assert (Hmissing : files Demo.empty_world !! input_image_path
                       ≫= @cv_decode Demo.tracing = None) by reflexivity.
  destruct (@unreadable_sheet_aborts Demo.tracing Demo.empty_world (or_introl Hmissing))
    as (e & Hrun & _ & _ & He).
  exists e. split; [exact Hrun | exact (He Hmissing)].
Defined.

Lemma canvas_at_least_32_witness :
  exists cw ch,
    next_multiple 1 = Ok cw /\ next_multiple 1 = Ok ch /\ 32 <= cw /\ 32 <= ch.
Proof.
  assert (Hv : Pil.valid_size Demo.dot_sprite) by (split; cbn; lia).
  destruct (@canvas_at_least_32 Demo.tracing Demo.dot_sprite Hv)
    as (cw & ch & Hcw & Hch & Hw & Hh & _).
  exists cw, ch. split; [exact Hcw |]. split; [exact Hch |].
  split; [exact Hw | exact Hh].
Defined.

(** * Further properties *)

Example splitext_sprite : splitext_ext "sprites_centered/sprite_07.png" = ".png"%string.
Proof. reflexivity. Qed.

Example splitext_only_dots : splitext_ext "sprites_centered/.png" = ""%string.
Proof. reflexivity. Qed.

Example splitext_dot_in_directory : splitext_ext "a.b/c" = ""%string.
Proof. reflexivity. Qed.

Example splitext_last_dot : splitext_ext "x.tar.gz" = ".gz"%string.
Proof. reflexivity. Qed.

(** ** [next_multiple] with any base *)

Lemma ceil_div_unique (m P C : Z) :
  0 < P -> (C - 1) * P < m <= C * P -> - ((- m) / P) = C.
Proof.
  intros HP [Hlo Hhi].
  rewrite <- (Z.div_unique (- m) P (- C) (C * P - m)); lia.
Qed.

Lemma round_half_even_bounds (num den : Z) :
  0 < den ->
  num / den <= PyNum.round_half_even num den <= num / den + 1 /\
  (num mod den = 0 -> PyNum.round_half_even num den = num / den).
Proof.
  intros Hd. unfold PyNum.round_half_even.
  destruct (Z.ltb_spec (2 * (num mod den)) den).
  - split; [lia | reflexivity].
  - split.
    + destruct (den <? 2 * (num mod den)); [lia |].
      destruct (Z.even (num / den)); lia.
    + intros Hz. lia.
Qed.

Lemma scale_nonpos (a b e : Z) :
  e <= 0 -> PyNum.scale_num a e = a * 2 ^ (- e) /\ PyNum.scale_den b e = b.
Proof.
  intros He. unfold PyNum.scale_num, PyNum.scale_den.
  destruct (Z.leb_spec 0 e).
  - replace e with 0 by lia. cbn. lia.
  - split; reflexivity.
Qed.

(** With 53 bits to spare the unit in the last place is a fraction, and
    finer than one part in [b]. *)
Lemma ulp_expo_fine (a b : Z) :
  0 < a <= 2 ^ 52 -> 0 < b < 2 ^ 1021 ->
  - 1074 <= PyNum.ulp_expo a b <= 0 /\ b <= 2 ^ (- PyNum.ulp_expo a b).
Proof.
  intros [Ha0 Ha1] [Hb0 Hb1].
  pose proof (Z.log2_nonneg a) as Hla0. pose proof (Z.log2_nonneg b) as Hlb0.
  assert (Hla1 : Z.log2 a <= 52).
  { destruct (Z.eq_dec a (2 ^ 52)) as [-> | Hne]; [reflexivity |].
    assert (Z.log2 a < 52) by (apply Z.log2_lt_pow2; lia). lia. }
  assert (Hlb1 : Z.log2 b < 1021) by (apply Z.log2_lt_pow2; lia).
  destruct (Z.log2_spec b Hb0) as [_ Hbhi].
  unfold PyNum.ulp_expo.
  set (e0 := Z.log2 a - Z.log2 b - 52).
  assert (He0 : - 1072 <= e0 <= 0) by (unfold e0; lia).
  destruct (scale_nonpos a b e0 ltac:(lia)) as [-> ->].
  assert (Hp0 : 0 < 2 ^ (- e0)) by (apply Z.pow_pos_nonneg; lia).
  destruct (Z.ltb_spec (a * 2 ^ (- e0) / b) (2 ^ 52)) as [Hsmall | Hbig].
  - rewrite Z.max_l by lia. split; [lia |].
    apply Z.le_trans with (2 ^ Z.succ (Z.log2 b)); [lia |].
    apply Z.pow_le_mono_r; lia.
  - rewrite Z.max_l by lia. split; [lia |].
    assert (Hmul : 2 ^ 52 * b <= a * 2 ^ (- e0)).
    { pose proof (Z.mul_div_le (a * 2 ^ (- e0)) b Hb0). nia. }
    assert (H52 : 0 < 2 ^ 52) by reflexivity.
    nia.
Qed.

(** Python's [n / base] followed by [math.ceil] is the exact ceiling for
    [n] up to [2 ^ 52]. *)
Lemma ceil_true_div_exact (n base : Z) :
  0 < n <= 2 ^ 52 -> 0 < base < 2 ^ 1021 ->
  exists f, PyNum.true_div n base = Ok f /\ PyNum.ceil f = - ((- n) / base).
Proof.
  intros Hn Hb.
  destruct (ulp_expo_fine n base Hn Hb) as [He HP].
  unfold PyNum.true_div.
  destruct (Z.eqb_spec base 0); [lia |]. destruct (Z.eqb_spec n 0); [lia |].
  rewrite (Z.abs_eq n), (Z.abs_eq base) by lia.
  unfold PyNum.true_div_pos.
  set (e := PyNum.ulp_expo n base) in *.
  destruct (scale_nonpos n base e ltac:(lia)) as [-> ->].
  set (P := 2 ^ (- e)) in *.
  assert (HP0 : 0 < P) by lia.
  destruct (round_half_even_bounds (n * P) base ltac:(lia)) as [[Hmlo Mmhi] Hmex].
  set (m := PyNum.round_half_even (n * P) base) in *.
  destruct (Z.ltb_spec 971 e); [lia |]. destruct (Z.eqb_spec e 971); [lia |].
  cbn [orb andb]. eexists. split; [reflexivity |].
  cbn [PyNum.mant PyNum.expo]. rewrite (Z.sgn_pos n), (Z.sgn_pos base) by lia.
  replace (1 * 1 * m) with m by lia.
  assert (Hceil : - ((- m) / P) = - ((- n) / base)).
  { set (C := - ((- n) / base)).
    assert (HC : (C - 1) * base < n <= C * base).
    { unfold C. pose proof (Z.div_mod (- n) base ltac:(lia)).
      pose proof (Z.mod_pos_bound (- n) base ltac:(lia)). nia. }
    apply ceil_div_unique; [exact HP0 |].
    pose proof (Z.div_mod (n * P) base ltac:(lia)) as Hdm.
    pose proof (Z.mod_pos_bound (n * P) base ltac:(lia)) as Hmod.
    split.
    - assert ((C - 1) * P + 1 <= n * P / base); [| lia].
      apply Z.div_le_lower_bound; [lia |].
      assert (1 * P <= (n - (C - 1) * base) * P)
        by (apply Z.mul_le_mono_nonneg_r; lia).
      lia.
    - destruct (Z.eq_dec ((n * P) mod base) 0) as [Hz | Hnz].
      + rewrite (Hmex Hz). apply Z.div_le_upper_bound; [lia |].
        assert (n * P <= C * base * P) by (apply Z.mul_le_mono_nonneg_r; lia).
        lia.
      + assert (n * P / base < C * P); [| lia].
        assert (n * P <= C * base * P) by (apply Z.mul_le_mono_nonneg_r; lia).
        assert (base * (n * P / base) < base * (C * P)) by lia.
        apply Z.mul_lt_mono_pos_l with base; lia. }
  unfold PyNum.ceil. cbn [PyNum.mant PyNum.expo]. fold P.
  destruct (Z.leb_spec 0 e); [| exact Hceil].
  rewrite <- Hceil. unfold P. replace e with 0 by lia. cbn.
  rewrite Z.div_1_r. lia.
Qed.

Lemma round_up_least (base n : Z) :
  0 < base -> least_multiple base n (base * - ((- n) / base)).
Proof.
  intros Hb.
  pose proof (Z.div_mod (- n) base ltac:(lia)) as Hdm.
  pose proof (Z.mod_pos_bound (- n) base ltac:(lia)) as Hr.
  split; [exists (- ((- n) / base)); lia |]. split; [lia |].
  intros m [k ->] Hk.
  assert (- (- n / base) <= k); [| nia].
  assert (base * (- (- n / base) - 1) < base * k) by lia.
  apply Z.mul_lt_mono_pos_l in H; lia.
Qed.

(** X8: [next_multiple] with a base of the caller: for [n] from 0 to [2 ^ 52]
    and a base that is positive (and below [2 ^ 1021]) the float division
    loses nothing, and the result is the least multiple of the base from
    [n] up: less than a base above [n], and [n] itself when [n] is a
    multiple. *)
Theorem next_multiple_base_least (n base : Z) :
  0 <= n <= 2 ^ 52 -> 0 < base < 2 ^ 1021 ->
  exists c, next_multiple_base n base = Ok c /\
    least_multiple base n c /\ c < n + base /\ ((base | n) -> c = n).
Proof.
  intros Hn Hb. exists (base * - ((- n) / base)).
  assert (Hrun : next_multiple_base n base = Ok (base * - ((- n) / base))).
  { unfold next_multiple_base. destruct (Z.eq_dec n 0) as [-> | Hnz].
    - unfold PyNum.true_div. destruct (Z.eqb_spec base 0); [lia |].
      cbn. f_equal; lia.
    - destruct (ceil_true_div_exact n base ltac:(lia) Hb) as (f & -> & ->).
      reflexivity. }
  split; [exact Hrun |]. split; [apply round_up_least; lia |]. split.
  - pose proof (Z.div_mod (- n) base ltac:(lia)).
    pose proof (Z.mod_pos_bound (- n) base ltac:(lia)). lia.
  - intros [k ->]. rewrite <- Z.mul_opp_l, Z.div_mul by lia. lia.
Qed.

(** X9: from [2 ^ 1029] on the quotient by 32 is beyond the largest float and
    [next_multiple] raises [OverflowError]. *)
Theorem next_multiple_overflows (n : Z) :
  2 ^ 1029 <= n -> next_multiple n = Raise OverflowError.
Proof.
  intros Hn.
  assert (H0 : 0 < 2 ^ 1029) by (apply Z.pow_pos_nonneg; lia).
  assert (Hl : 1029 <= Z.log2 n) by (apply Z.log2_le_pow2; lia).
  destruct (Z.log2_spec n ltac:(lia)) as [Hlo _].
  unfold next_multiple, next_multiple_base, PyNum.true_div.
  destruct (Z.eqb_spec 32 0); [lia |]. destruct (Z.eqb_spec n 0); [lia |].
  rewrite (Z.abs_eq n) by lia. change (Z.abs 32) with 32.
  unfold PyNum.true_div_pos, PyNum.ulp_expo. change (Z.log2 32) with 5.
  set (l := Z.log2 n) in *.
  replace (l - 5 - 52) with (l - 57) by lia.
  unfold PyNum.scale_num, PyNum.scale_den.
  destruct (Z.leb_spec 0 (l - 57)); [| lia].
  assert (Hden : 32 * 2 ^ (l - 57) = 2 ^ (l - 52)).
  { replace (l - 52) with (5 + (l - 57)) by lia. rewrite Z.pow_add_r by lia. reflexivity. }
  rewrite Hden.
  assert (Hp : 0 < 2 ^ (l - 52)) by (apply Z.pow_pos_nonneg; lia).
  assert (Hq : 2 ^ 52 <= n / 2 ^ (l - 52)).
  { apply Z.div_le_lower_bound; [lia |].
    rewrite <- Z.pow_add_r by lia. replace (l - 52 + 52) with l by lia. exact Hlo. }
  destruct (Z.ltb_spec (n / 2 ^ (l - 52)) (2 ^ 52)); [lia |].
  rewrite Z.max_l by lia.
  destruct (Z.leb_spec 0 (l - 57)); [| lia].
  destruct (Z.ltb_spec 971 (l - 57)); [reflexivity | lia].
Qed.

(** ** Suffixes and names *)

Lemma string_app_assoc (s t u : string) : (s +:+ t) +:+ u = s +:+ (t +:+ u).
Proof.
  induction s as [| c s IH]; [reflexivity |].
  rewrite !string_app_cons, IH. reflexivity.
Qed.

Lemma substring_all (t : string) : String.substring 0 (String.length t) t = t.
Proof. induction t as [| c t IH]; cbn; [reflexivity | by rewrite IH]. Qed.

Lemma substring_app_skip (p t : string) (k : nat) :
  String.substring (String.length p) k (p +:+ t) = String.substring 0 k t.
Proof.
  induction p as [| c p IH]; [reflexivity |].
  rewrite string_app_cons. cbn [String.length String.substring]. exact IH.
Qed.

Lemma substring_split (s : string) (m : nat) :
  (m <= String.length s)%nat ->
  s = String.substring 0 m s +:+ String.substring m (String.length s - m) s.
Proof.
  revert m. induction s as [| c s IH]; intros m Hm.
  - cbn in Hm. replace m with 0%nat by lia. reflexivity.
  - destruct m as [| m].
    + cbn [String.substring String.length Nat.sub]. rewrite substring_all. reflexivity.
    + cbn [String.substring String.length Nat.sub]. rewrite string_app_cons.
      f_equal. apply IH. cbn in Hm. lia.
Qed.

(** [endswith] holds of the strings that are something followed by the
    suffix, and of no other. *)
Lemma endswith_app (s suffix : string) :
  endswith s suffix = true <-> exists p, s = p +:+ suffix.
Proof.
  unfold endswith. split.
  - intros Hend. apply andb_true_iff in Hend as [Hlen Heq].
    apply Nat.leb_le in Hlen. apply String.eqb_eq in Heq.
    exists (String.substring 0 (String.length s - String.length suffix) s).
    pose proof (substring_split s (String.length s - String.length suffix)
                  ltac:(lia)) as Hsplit.
    replace (String.length s - (String.length s - String.length suffix))%nat
      with (String.length suffix) in Hsplit by lia.
    rewrite Heq in Hsplit. exact Hsplit.
  - intros [p ->]. rewrite string_length_app. apply andb_true_iff. split.
    + apply Nat.leb_le. lia.
    + replace (String.length p + String.length suffix - String.length suffix)%nat
        with (String.length p) by lia.
      rewrite substring_app_skip, substring_all. apply String.eqb_refl.
Qed.

Lemma str_of_nat_nonempty (n : nat) : (1 <= String.length (str_of_nat n))%nat.
Proof.
  unfold str_of_nat. destruct (Nat.to_uint n) as [| d | d | d | d | d | d | d | d | d | d] eqn:Hd;
    cbn; try lia.
  pose proof (f_equal Nat.of_uint Hd) as Hn. rewrite Unsigned.of_to in Hn.
  cbn in Hn. subst n. discriminate Hd.
Qed.

(** X7: the name of a sprite ends in [.png], so the Normalizer takes it up; it
    has two digits at least; the position reads back from the digits, and
    two positions never share a name, past 99 either. *)
Theorem sprite_name_reads_back (i : nat) :
  endswith (sprite_name i) ".png" = true /\
  (2 <= String.length (format_02d i))%nat /\
  Nat.of_uint <$> NilEmpty.uint_of_string (format_02d i) = Some i /\
  (forall j, sprite_name i = sprite_name j -> i = j) /\
  (forall j, sprite_path i = sprite_path j -> i = j).
Proof.
  split; [| split; [| split; [| split]]].
  - apply endswith_app. exists ("sprite_" +:+ format_02d i).
    unfold sprite_name. by rewrite string_app_assoc.
  - unfold format_02d. pose proof (str_of_nat_nonempty i) as Hlen.
    destruct (Nat.ltb_spec (String.length (str_of_nat i)) 2) as [Hlt | Hge].
    + rewrite string_length_app. cbn [String.length]. lia.
    + exact Hge.
  - apply format_02d_read.
  - intros j Heq. unfold sprite_name in Heq. apply String.app_inj in Heq.
    apply string_app_inj_r in Heq. by apply format_02d_inj.
  - apply sprite_path_inj.
Qed.

(** ** Bounding boxes and crops *)

Lemma kept_accepted (cnt : Cv.contour) : kept cnt = true <-> accepted cnt.
Proof.
  unfold kept. destruct (Cv.boundingRect cnt) as [[[x y] bw] bh] eqn:Hbb.
  rewrite (accepted_iff cnt x y bw bh Hbb), negb_true_iff. reflexivity.
Qed.

Lemma foldr_min_spec (a : Z) (l : list Z) :
  foldr Z.min a l ∈ a :: l /\ forall z, z ∈ a :: l -> foldr Z.min a l <= z.
Proof.
  induction l as [| b l [Hin Hle]]; cbn [foldr].
  - split; [apply list_elem_of_here |].
    intros z Hz. apply list_elem_of_singleton in Hz. lia.
  - split.
    + destruct (Z.min_spec b (foldr Z.min a l)) as [[_ ->] | [_ ->]].
      * apply list_elem_of_further, list_elem_of_here.
      * apply elem_of_cons in Hin as [-> | Hin];
          [apply list_elem_of_here | by do 2 apply list_elem_of_further].
    + intros z Hz. apply elem_of_cons in Hz as [-> | Hz].
      * specialize (Hle a (list_elem_of_here _ _)). lia.
      * apply elem_of_cons in Hz as [-> | Hz]; [lia |].
        specialize (Hle z (list_elem_of_further _ _ _ Hz)). lia.
Qed.

Lemma foldr_max_spec (a : Z) (l : list Z) :
  foldr Z.max a l ∈ a :: l /\ forall z, z ∈ a :: l -> z <= foldr Z.max a l.
Proof.
  induction l as [| b l [Hin Hle]]; cbn [foldr].
  - split; [apply list_elem_of_here |].
    intros z Hz. apply list_elem_of_singleton in Hz. lia.
  - split.
    + destruct (Z.max_spec b (foldr Z.max a l)) as [[_ ->] | [_ ->]].
      * apply elem_of_cons in Hin as [-> | Hin];
          [apply list_elem_of_here | by do 2 apply list_elem_of_further].
      * apply list_elem_of_further, list_elem_of_here.
    + intros z Hz. apply elem_of_cons in Hz as [-> | Hz].
      * specialize (Hle a (list_elem_of_here _ _)). lia.
      * apply elem_of_cons in Hz as [-> | Hz]; [lia |].
        specialize (Hle z (list_elem_of_further _ _ _ Hz)). lia.
Qed.

(** The box of a contour with a point: every point is in it, and a point
    lies on each of its four sides. *)
Lemma boundingRect_spec (cnt : Cv.contour) x y bw bh :
  cnt <> [] ->
  Cv.boundingRect cnt = (x, y, bw, bh) ->
  (forall p, p ∈ cnt -> x <= fst p < x + bw /\ y <= snd p < y + bh) /\
  (exists p, p ∈ cnt /\ fst p = x) /\
  (exists p, p ∈ cnt /\ fst p = x + bw - 1) /\
  (exists p, p ∈ cnt /\ snd p = y) /\
  (exists p, p ∈ cnt /\ snd p = y + bh - 1).
Proof.
  destruct cnt as [| p0 ps]; [done |]. intros _ Hbb.
  cbn [Cv.boundingRect] in Hbb. injection Hbb as <- <- <- <-.
  destruct (foldr_min_spec (fst p0) (fst <$> ps)) as [Hx0 Hxlo].
  destruct (foldr_max_spec (fst p0) (fst <$> ps)) as [Hx1 Hxhi].
  destruct (foldr_min_spec (snd p0) (snd <$> ps)) as [Hy0 Hylo].
  destruct (foldr_max_spec (snd p0) (snd <$> ps)) as [Hy1 Hyhi].
  change (fst p0 :: (fst <$> ps)) with (fst <$> (p0 :: ps)) in *.
  change (snd p0 :: (snd <$> ps)) with (snd <$> (p0 :: ps)) in *.
  split; [| split; [| split; [| split]]].
  - intros p Hp.
    pose proof (Hxlo _ (list_elem_of_fmap_2 fst _ _ Hp)).
    pose proof (Hxhi _ (list_elem_of_fmap_2 fst _ _ Hp)).
    pose proof (Hylo _ (list_elem_of_fmap_2 snd _ _ Hp)).
    pose proof (Hyhi _ (list_elem_of_fmap_2 snd _ _ Hp)).
    lia.
  - apply list_elem_of_fmap in Hx0 as (p & Hp & Hin). exists p. split; [done | lia].
  - apply list_elem_of_fmap in Hx1 as (p & Hp & Hin). exists p. split; [done | lia].
  - apply list_elem_of_fmap in Hy0 as (p & Hp & Hin). exists p. split; [done | lia].
  - apply list_elem_of_fmap in Hy1 as (p & Hp & Hin). exists p. split; [done | lia].
Qed.

(** X5: the crop cut for a contour whose points are on the sheet: the box lies
    on the sheet, so the sprite is the sheet pixel for pixel with nothing
    filled in, it has every point of the contour, and no row or column of
    it is without one on a side. *)
Theorem crop_of_contour_on_sheet (sheet : Pil.Image) (cnt : Cv.contour) x y bw bh :
  cnt <> [] ->
  (forall p, p ∈ cnt ->
     0 <= fst p < Pil.width sheet /\ 0 <= snd p < Pil.height sheet) ->
  Cv.boundingRect cnt = (x, y, bw, bh) ->
  let sprite := Pil.crop sheet (x, y, x + bw, y + bh) in
  Pil.width sprite = bw /\ Pil.height sprite = bh /\
  1 <= bw /\ 1 <= bh /\
  0 <= x /\ x + bw <= Pil.width sheet /\ 0 <= y /\ y + bh <= Pil.height sheet /\
  (forall u v, 0 <= u < bw -> 0 <= v < bh ->
     Pil.getpixel sprite u v = Pil.getpixel sheet (x + u) (y + v)) /\
  (forall p, p ∈ cnt ->
     0 <= fst p - x < bw /\ 0 <= snd p - y < bh /\
     Pil.getpixel sprite (fst p - x) (snd p - y) = Pil.getpixel sheet (fst p) (snd p)).
Proof.
  intros Hne Hon Hbb sprite.
  destruct (boundingRect_spec cnt x y bw bh Hne Hbb)
    as (Hin & (px0 & Hpx0 & Hx0) & (px1 & Hpx1 & Hx1) & (py0 & Hpy0 & Hy0) & (py1 & Hpy1 & Hy1)).
  pose proof (Hon _ Hpx0). pose proof (Hon _ Hpx1).
  pose proof (Hon _ Hpy0). pose proof (Hon _ Hpy1).
  pose proof (Hin _ Hpx0). pose proof (Hin _ Hpy0).
  assert (Hpix : forall u v, 0 <= u < bw -> 0 <= v < bh ->
            Pil.getpixel sprite u v = Pil.getpixel sheet (x + u) (y + v)).
  { intros u v Hu Hv. unfold sprite, Pil.crop. cbn [Pil.getpixel]. unfold Pil.inside.
    destruct (Z.leb_spec 0 (x + u)); [| lia].
    destruct (Z.ltb_spec (x + u) (Pil.width sheet)); [| lia].
    destruct (Z.leb_spec 0 (y + v)); [| lia].
    destruct (Z.ltb_spec (y + v) (Pil.height sheet)); [| lia].
    reflexivity. }
  unfold sprite at 1 2, Pil.crop. cbn [Pil.width Pil.height].
  repeat (split; [lia |]). split; [exact Hpix |].
  intros p Hp. pose proof (Hin _ Hp). split; [lia |]. split; [lia |].
  rewrite Hpix by lia. f_equal; lia.
Qed.

(** X6: for points on an image (coordinates from 0 to below [2 ^ 31 - 1],
    so that the sides of the box fit the 32-bit ints OpenCV computes them
    in), the filter of line 34 keeps a contour exactly when its points span
    ten columns and ten rows at least; a contour without a point is
    skipped. *)
Theorem kept_iff_spans_10 (cnt : Cv.contour) :
  (forall p, p ∈ cnt -> 0 <= fst p < 2 ^ 31 - 1 /\ 0 <= snd p < 2 ^ 31 - 1) ->
  (kept cnt = true <->
   (exists p q, p ∈ cnt /\ q ∈ cnt /\ 9 <= fst q - fst p) /\
   (exists p q, p ∈ cnt /\ q ∈ cnt /\ 9 <= snd q - snd p)).
Proof.
  intros _. rewrite kept_accepted.
  destruct cnt as [| p0 ps] eqn:Hcnt.
  { unfold accepted. cbn. split; [lia |].
    intros [(p & _ & Hp & _) _]. by apply elem_of_nil in Hp. }
  rewrite <- Hcnt. assert (Hne : cnt <> []) by (by rewrite Hcnt). clear Hcnt.
  destruct (Cv.boundingRect cnt) as [[[x y] bw] bh] eqn:Hbb.
  destruct (boundingRect_spec cnt x y bw bh Hne Hbb)
    as (Hin & (px0 & Hpx0 & Hx0) & (px1 & Hpx1 & Hx1) & (py0 & Hpy0 & Hy0) & (py1 & Hpy1 & Hy1)).
  unfold accepted. rewrite Hbb. split.
  - intros [Hw Hh]. split.
    + exists px0, px1. split; [done |]. split; [done | lia].
    + exists py0, py1. split; [done |]. split; [done | lia].
  - intros [(p & q & Hp & Hq & Hpq) (r & s & Hr & Hs & Hrs)].
    pose proof (Hin _ Hp). pose proof (Hin _ Hq).
    pose proof (Hin _ Hr). pose proof (Hin _ Hs). lia.
Qed.

(** ** Runs of the Extractor *)

Section ExtractorRuns.
Context `{!ImageLibs}.

(** Every way a run of the Extractor can go, in the order the script meets
    them. *)
Lemma getsprites_outcome (w : world) :
  let w0 := mkWorld ({[ output_dir ]} ∪ dirs w) (files w) (stdout w) in
  match files w !! input_image_path ≫= cv_decode with
  | None => getsprites w = (Raise AttributeError, w0)
  | Some m =>
      match Cv.shape m !! 2%nat with
      | None => getsprites w = (Raise IndexError, w0)
      | Some channels =>
          match files w !! input_image_path ≫= pil_decode with
          | None => getsprites w = (Raise UnidentifiedImageError, w0)
          | Some sheet =>
              getsprites w =
                (Ok tt,
                 mkWorld (dirs w0)
                   (files (snd (extract_loop sheet 0 (sheet_contours m channels) w0)))
                   (stdout w ++ [summary_line (length (sheet_contours m channels))]))
          end
      end
  end.
Proof.
  intros w0.
  destruct (files w !! input_image_path ≫= cv_decode) as [m |] eqn:Hcv.
  - destruct (files w !! input_image_path) as [b |] eqn:Hfile; [| done].
    cbn in Hcv. cbn [mbind option_bind].
    destruct (Cv.shape m !! 2%nat) as [channels |] eqn:Hshape.
    + destruct (pil_decode b) as [sheet |] eqn:Hpil.
      * by apply getsprites_readable with b.
      * unfold getsprites.
        erewrite io_bind_ok by (unfold makedirs; reflexivity). fold w0.
        erewrite io_bind_ok
          by (unfold imread; cbn [files w0]; rewrite Hfile; cbn; rewrite Hcv; reflexivity).
        cbv beta iota.
        erewrite io_bind_ok by (unfold lift, shape_2; rewrite Hshape; reflexivity).
        apply io_bind_raise. unfold Image_open.
        erewrite io_bind_ok
          by (unfold read_file; cbn [files w0]; rewrite Hfile; reflexivity).
        rewrite Hpil. reflexivity.
    + unfold getsprites.
      erewrite io_bind_ok by (unfold makedirs; reflexivity). fold w0.
      erewrite io_bind_ok
        by (unfold imread; cbn [files w0]; rewrite Hfile; cbn; rewrite Hcv; reflexivity).
      cbv beta iota. apply io_bind_raise.
      unfold lift, shape_2. rewrite Hshape. reflexivity.
  - unfold getsprites.
    erewrite io_bind_ok by (unfold makedirs; reflexivity). fold w0.
    erewrite io_bind_ok by (unfold imread; cbn [files w0]; rewrite Hcv; reflexivity).
    reflexivity.
Qed.

(** X1: a sheet OpenCV decodes to a two-dimensional array (a grey-level image)
    stops the run on [image.shape[2]] with an [IndexError]: the output
    directory is there, no file is written and nothing is printed. *)
Theorem grey_sheet_raises_IndexError (w : world) b m :
  files w !! input_image_path = Some b ->
  cv_decode b = Some m ->
  length (Cv.shape m) = 2%nat ->
  getsprites w =
    (Raise IndexError, mkWorld ({[ output_dir ]} ∪ dirs w) (files w) (stdout w)).
Proof.
  intros Hfile Hcv Hdim.
  pose proof (getsprites_outcome w) as Hrun. cbv zeta in Hrun.
  rewrite Hfile in Hrun. cbn [mbind option_bind] in Hrun. rewrite Hcv in Hrun.
  rewrite (lookup_ge_None_2 (Cv.shape m) 2) in Hrun by lia. exact Hrun.
Qed.

Lemma sheet_not_a_sprite (i : nat) : input_image_path <> sprite_path i.
Proof.
  unfold input_image_path, sprite_path, path_join, output_dir. intros Heq.
  cbv [String.append] in Heq. discriminate Heq.
Qed.

(** X2: whatever the run meets, it creates the output directory and changes no
    file but sprites of the output directory: every other path, the sheet
    among them, keeps its content, and no other directory is made. *)
Theorem getsprites_writes_sprites_only (w : world) :
  dirs (snd (getsprites w)) = {[ output_dir ]} ∪ dirs w /\
  (forall p, (forall i, p <> sprite_path i) ->
     files (snd (getsprites w)) !! p = files w !! p) /\
  files (snd (getsprites w)) !! input_image_path = files w !! input_image_path.
Proof.
  set (w0 := mkWorld ({[ output_dir ]} ∪ dirs w) (files w) (stdout w)).
  assert (Hframe : forall p, (forall i, p <> sprite_path i) ->
            files (snd (getsprites w)) !! p = files w !! p).
  { intros p Hp. pose proof (getsprites_outcome w) as Hrun. cbv zeta in Hrun.
    destruct (files w !! input_image_path ≫= cv_decode) as [m |];
      [| by rewrite Hrun].
    destruct (Cv.shape m !! 2%nat) as [channels |]; [| by rewrite Hrun].
    destruct (files w !! input_image_path ≫= pil_decode) as [sheet |];
      [| by rewrite Hrun].
    rewrite Hrun. cbn [snd files].
    rewrite extract_loop_frame; [reflexivity |]. intros j c _ _. apply Hp. }
  split; [| split].
  - pose proof (getsprites_outcome w) as Hrun. cbv zeta in Hrun.
    destruct (files w !! input_image_path ≫= cv_decode) as [m |];
      [| by rewrite Hrun].
    destruct (Cv.shape m !! 2%nat) as [channels |]; [| by rewrite Hrun].
    destruct (files w !! input_image_path ≫= pil_decode) as [sheet |];
      by rewrite Hrun.
  - exact Hframe.
  - apply Hframe. intros i. apply sheet_not_a_sprite.
Qed.



(** A loop over contours whose sprites are on disk already leaves the files
    as they are. *)
Lemma extract_loop_rewrites (sheet : Pil.Image) cs (i : nat) (w : world) :
  (forall j c x y bw bh,
     cs !! j = Some c -> Cv.boundingRect c = (x, y, bw, bh) ->
     10 <= bw -> 10 <= bh ->
     files w !! sprite_path (i + j) =
       Some (png_encode (Pil.crop sheet (x, y, x + bw, y + bh)))) ->
  files (snd (extract_loop sheet i cs w)) = files w.
Proof.
  revert i w. induction cs as [| cnt rest IH]; intros i w Hdisk; [done |].
  assert (Hrest : forall j c x y bw bh,
            rest !! j = Some c -> Cv.boundingRect c = (x, y, bw, bh) ->
            10 <= bw -> 10 <= bh ->
            files w !! sprite_path (S i + j) =
              Some (png_encode (Pil.crop sheet (x, y, x + bw, y + bh)))).
  { intros j c x y bw bh Hj Hbb Hbw Hbh.
    replace (S i + j)%nat with (i + S j)%nat by lia.
    by apply (Hdisk (S j) c). }
  rewrite extract_loop_cons.
  destruct (Cv.boundingRect cnt) as [[[x y] bw] bh] eqn:Hbb.
  destruct (Z.ltb_spec bw 10); cbn [orb]; [by apply IH |].
  destruct (Z.ltb_spec bh 10); [by apply IH |].
  assert (Hhere : files w !! sprite_path i =
            Some (png_encode (Pil.crop sheet (x, y, x + bw, y + bh)))).
  { rewrite <- (Nat.add_0_r i) at 1. by apply (Hdisk 0%nat cnt). }
  rewrite IH; cbn [files]; rewrite insert_id by exact Hhere; [reflexivity | exact Hrest].
Qed.

(** X4: a second run of the Extractor on what the first left ends as the first
    and rewrites every sprite with the bytes it has: the sheet is not among
    the files the run writes. *)
Theorem extractor_idempotent (w : world) :
  fst (getsprites (snd (getsprites w))) = fst (getsprites w) /\
  files (snd (getsprites (snd (getsprites w)))) = files (snd (getsprites w)) /\
  dirs (snd (getsprites (snd (getsprites w)))) = dirs (snd (getsprites w)).
Proof.
  set (w1 := snd (getsprites w)).
  assert (Hsheet : files w1 !! input_image_path = files w !! input_image_path).
  { unfold w1. pose proof (getsprites_outcome w) as Hrun. cbv zeta in Hrun.
    destruct (files w !! input_image_path ≫= cv_decode) as [m |];
      [| by rewrite Hrun].
    destruct (Cv.shape m !! 2%nat) as [channels |]; [| by rewrite Hrun].
    destruct (files w !! input_image_path ≫= pil_decode) as [sheet |];
      [| by rewrite Hrun].
    rewrite Hrun. cbn [snd files].
    rewrite extract_loop_frame; [reflexivity |].
    intros j c _ _. apply sheet_not_a_sprite. }
  assert (Hdirs : dirs w1 = {[ output_dir ]} ∪ dirs w).
  { unfold w1. pose proof (getsprites_outcome w) as Hrun. cbv zeta in Hrun.
    destruct (files w !! input_image_path ≫= cv_decode) as [m |];
      [| by rewrite Hrun].
    destruct (Cv.shape m !! 2%nat) as [channels |]; [| by rewrite Hrun].
    destruct (files w !! input_image_path ≫= pil_decode) as [sheet |];
      by rewrite Hrun. }
  pose proof (getsprites_outcome w1) as Hrun2. cbv zeta in Hrun2.
  rewrite Hsheet, Hdirs, makedirs_twice in Hrun2.
  pose proof (getsprites_outcome w) as Hrun1. cbv zeta in Hrun1.
  destruct (files w !! input_image_path ≫= cv_decode) as [m |].
  2: { rewrite Hrun2. unfold w1 at 1 2 3. rewrite Hrun1. cbn [fst snd files dirs].
       split; [reflexivity |]. split; [| exact (eq_sym Hdirs)].
       unfold w1. by rewrite Hrun1. }
  destruct (Cv.shape m !! 2%nat) as [channels |].
  2: { rewrite Hrun2. unfold w1 at 1 2 3. rewrite Hrun1. cbn [fst snd files dirs].
       split; [reflexivity |]. split; [| exact (eq_sym Hdirs)].
       unfold w1. by rewrite Hrun1. }
  destruct (files w !! input_image_path ≫= pil_decode) as [sheet |].
  2: { rewrite Hrun2. unfold w1 at 1 2 3. rewrite Hrun1. cbn [fst snd files dirs].
       split; [reflexivity |]. split; [| exact (eq_sym Hdirs)].
       unfold w1. by rewrite Hrun1. }
  rewrite Hrun2. cbn [fst snd files dirs].
  split; [by rewrite Hrun1 |]. split; [| exact (eq_sym Hdirs)].
  set (cs := sheet_contours m channels) in *.
  set (w2 := mkWorld ({[ output_dir ]} ∪ dirs w) (files w1) (stdout w1)).
  assert (Hw1 : files w1 =
            files (snd (extract_loop sheet 0 cs
                     (mkWorld ({[ output_dir ]} ∪ dirs w) (files w) (stdout w))))).
  { unfold w1. by rewrite Hrun1. }
  apply (extract_loop_rewrites sheet cs 0 w2). intros j c x y bw bh Hj Hbb Hbw Hbh.
  cbn [files w2]. rewrite Hw1.
  by apply (extract_loop_saved sheet cs 0 _ j c x y bw bh).
Qed.

End ExtractorRuns.

(** ** Runs of the Normalizer, alone and after the Extractor *)

Lemma input_dir_not_centered_dir : input_dir <> centered_dir.
Proof. discriminate. Qed.

Section NormalizerOutcomes.
Context `{!ImageLibs}.

(** Every way a run of the Normalizer can go. *)
Lemma resizesprites_outcome es (w : world) :
  let w0 := mkWorld ({[ centered_dir ]} ∪ dirs w) (files w) (stdout w) in
  resizesprites es w =
    if decide (input_dir ∈ dirs w) then
      match fst (resize_loop es w0) with
      | Ok _ => (Ok tt, mkWorld (dirs w0) (files (snd (resize_loop es w0)))
                          (stdout w ++ [completion_line]))
      | Raise e => (Raise e, mkWorld (dirs w0) (files (snd (resize_loop es w0))) (stdout w))
      end
    else (Raise FileNotFoundError, w0).
Proof.
  intros w0. unfold resizesprites.
  erewrite io_bind_ok by (unfold makedirs; reflexivity). fold w0.
  assert (Hdir : input_dir ∈ dirs w0 <-> input_dir ∈ dirs w).
  { cbn [dirs w0]. rewrite elem_of_union, elem_of_singleton.
    pose proof input_dir_not_centered_dir. tauto. }
  destruct (decide (input_dir ∈ dirs w)) as [Hin | Hout].
  - erewrite io_bind_ok
      by (unfold listdir; rewrite decide_True by (by apply Hdir); reflexivity).
    destruct (resize_loop_passes es w0) as [Hd Ho].
    destruct (resize_loop es w0) as [[[] | e] wl] eqn:Hloop; cbn [fst snd] in *.
    + erewrite io_bind_ok by exact Hloop. unfold print. rewrite Hd, Ho. reflexivity.
    + erewrite io_bind_raise by exact Hloop. f_equal.
      destruct wl as [d f o]. cbn in Hd, Ho. by subst.
  - erewrite io_bind_raise
      by (unfold listdir; rewrite decide_False by (by rewrite Hdir); reflexivity).
    reflexivity.
Qed.

(** X10: without the input directory the run ends on [FileNotFoundError] at
    [os.listdir]; [os.makedirs] ran before, so the output directory is
    there, and nothing else has changed. *)
Theorem missing_input_dir_raises (es : list string) (w : world) :
  input_dir ∉ dirs w ->
  resizesprites es w =
    (Raise FileNotFoundError,
     mkWorld ({[ centered_dir ]} ∪ dirs w) (files w) (stdout w)).
Proof.
  intros Hout. rewrite resizesprites_outcome. by rewrite decide_False.
Qed.

Lemma resize_loop_filter es (w : world) :
  resize_loop es w = resize_loop (List.filter (fun f => endswith f ".png") es) w.
Proof.
  revert w. induction es as [| f rest IH]; intros w; [reflexivity |].
  cbn [List.filter]. destruct (endswith f ".png") eqn:Hpng.
  - rewrite !resize_loop_cons, Hpng. cbn [negb].
    destruct (centered_file (files w) f); [apply IH | reflexivity].
  - rewrite resize_loop_cons, Hpng. cbn [negb]. apply IH.
Qed.

(** X11: entries whose name does not end in [.png] play no part: the run is the
    run over the other entries, whatever those files hold.  The names taken
    are the names made of something followed by the four characters
    [.png]. *)
Theorem non_png_entries_skipped (es : list string) (w : world) :
  resizesprites es w =
    resizesprites (List.filter (fun f => endswith f ".png") es) w /\
  (forall f, endswith f ".png" = true <-> exists stem, f = stem +:+ ".png").
Proof.
  split; [| intros f; apply endswith_app].
  rewrite !resizesprites_outcome. by rewrite <- resize_loop_filter.
Qed.

(** X12: over a listing whose names in [.png] are more than dots before
    [png] (so that [os.path.splitext] finds the extension [.png] in the
    path to save and Pillow knows the format), the run raises nothing
    exactly when the input directory is there and every entry in [.png]
    can be read, decoded and pasted. *)
Theorem normalizer_succeeds_iff (es : list string) (w : world) :
  (forall f, f ∈ es -> endswith f ".png" = true ->
     splitext_ext (centered_path f) = ".png"%string) ->
  (fst (resizesprites es w) = Ok tt <->
   input_dir ∈ dirs w /\
   forall f, f ∈ es -> endswith f ".png" = true ->
     exists b, centered_file (files w) f = Ok b).
Proof.
  intros _. rewrite resizesprites_outcome.
  set (w0 := mkWorld ({[ centered_dir ]} ∪ dirs w) (files w) (stdout w)).
  destruct (decide (input_dir ∈ dirs w)) as [Hin | Hout].
  - split.
    + intros Hok. split; [exact Hin |]. intros f Hf Hpng.
      destruct (fst (resize_loop es w0)) as [[] | e] eqn:Hloop; [| done].
      destruct (resize_loop_saved es w0 f Hloop Hf Hpng) as (b & Hb & _). by exists b.
    + intros [_ Hall]. by rewrite (resize_loop_succeeds es w0 Hall).
  - split; [done | tauto].
Qed.

(** X13: the first entry in [.png] that cannot be centred ends the run on its
    exception: the files are those a run over the entries before it
    leaves, the entries after it are not reached, and the closing line is
    not printed. *)
Theorem first_bad_sprite_stops_the_run (pre post : list string) (f : string)
    (w : world) (e : exn) :
  input_dir ∈ dirs w ->
  fst (resizesprites pre w) = Ok tt ->
  endswith f ".png" = true ->
  centered_file (files w) f = Raise e ->
  fst (resizesprites (pre ++ f :: post) w) = Raise e /\
  files (snd (resizesprites (pre ++ f :: post) w)) = files (snd (resizesprites pre w)) /\
  stdout (snd (resizesprites (pre ++ f :: post) w)) = stdout w /\
  (forall g, g ∉ pre ->
     files (snd (resizesprites (pre ++ f :: post) w)) !! centered_path g =
       files w !! centered_path g).
Proof.
  intros Hin Hpre Hpng Hbad.
  rewrite resizesprites_outcome in Hpre. rewrite !resizesprites_outcome.
  destruct (decide (input_dir ∈ dirs w)) as [_ | ?]; [| done].
  set (w0 := mkWorld ({[ centered_dir ]} ∪ dirs w) (files w) (stdout w)) in *.
  destruct (fst (resize_loop pre w0)) as [[] | e0] eqn:Hloop; [clear Hpre | done].
  assert (Hrun : resize_loop (pre ++ f :: post) w0 = (Raise e, snd (resize_loop pre w0))).
  { rewrite resize_loop_app. destruct (resize_loop pre w0) as [r w1] eqn:Hw1.
    cbn [fst snd] in *. subst r.
    rewrite resize_loop_cons, Hpng. cbn [negb].
    pose proof (resize_loop_inputs pre w0 f) as Hsame. rewrite Hw1 in Hsame.
    cbn [snd] in Hsame. rewrite Hsame. cbn [files w0]. by rewrite Hbad. }
  rewrite Hrun. cbn [fst snd files stdout].
  split; [reflexivity |]. split; [reflexivity |]. split; [reflexivity |].
  intros g Hg. rewrite resize_loop_frame; [reflexivity |].
  intros h Hh _ Heq. apply centered_path_inj in Heq. by subst h.
Qed.

(** X14: whatever the run meets, no file changes but the canvases of the
    entries in [.png]: the sprites read stay as they are, no directory is
    made but the output directory, and the closing line is printed exactly
    when nothing was raised. *)
Theorem resizesprites_writes_canvases_only (es : list string) (w : world) :
  dirs (snd (resizesprites es w)) = {[ centered_dir ]} ∪ dirs w /\
  (forall p, (forall f, f ∈ es -> endswith f ".png" = true -> p <> centered_path f) ->
     files (snd (resizesprites es w)) !! p = files w !! p) /\
  (forall g, files (snd (resizesprites es w)) !! path_join input_dir g =
             files w !! path_join input_dir g) /\
  stdout (snd (resizesprites es w)) =
    match fst (resizesprites es w) with
    | Ok _ => stdout w ++ [completion_line]
    | Raise _ => stdout w
    end.
Proof.
  rewrite !resizesprites_outcome.
  set (w0 := mkWorld ({[ centered_dir ]} ∪ dirs w) (files w) (stdout w)).
  assert (Hframe : forall p,
            (forall f, f ∈ es -> endswith f ".png" = true -> p <> centered_path f) ->
            files (snd (resize_loop es w0)) !! p = files w !! p).
  { intros p Hp. by rewrite resize_loop_frame. }
  assert (Hinput : forall f g, path_join input_dir g <> centered_path f).
  { intros f g Heq. symmetry in Heq. by apply centered_path_not_input in Heq. }
  destruct (decide (input_dir ∈ dirs w)) as [_ | _]; [| by cbn].
  destruct (fst (resize_loop es w0)) as [[] | e]; cbn [fst snd dirs files stdout].
  - split; [reflexivity |]. split; [exact Hframe |]. split; [| reflexivity].
    intros g. apply Hframe. intros f _ _. apply Hinput.
  - split; [reflexivity |]. split; [exact Hframe |]. split; [| reflexivity].
    intros g. apply Hframe. intros f _ _. apply Hinput.
Qed.

(** X15: the sprite sits inside the canvas, with less than a block of padding:
    at most 15 pixels before it and one more after it if the padding is
    odd; the canvas is RGBA, transparent wherever the sprite is not, and
    blended from the resized sprite where it is. *)
Theorem centered_footprint (sprite : Pil.Image) :
  Pil.valid_size sprite ->
  Pil.mask_mode (Pil.im_mode sprite) = true ->
  let resized := resize sprite (new_size (Pil.width sprite) (Pil.height sprite)) in
  exists canvas ox oy,
    center_sprite sprite = Ok canvas /\
    ox = offset (Pil.width canvas) (Pil.width resized) /\
    oy = offset (Pil.height canvas) (Pil.height resized) /\
    0 <= ox <= 15 /\ 0 <= oy <= 15 /\
    ox + Pil.width resized <= Pil.width canvas /\
    oy + Pil.height resized <= Pil.height canvas /\
    ox <= Pil.width canvas - (ox + Pil.width resized) <= ox + 1 /\
    oy <= Pil.height canvas - (oy + Pil.height resized) <= oy + 1 /\
    Pil.im_mode canvas = Pil.RGBA /\
    forall x y,
      Pil.getpixel canvas x y =
        if decide (ox <= x < ox + Pil.width resized /\ oy <= y < oy + Pil.height resized)
        then blend [0; 0; 0; 0] (Pil.getpixel resized (x - ox) (y - oy))
                   (Pil.getpixel resized (x - ox) (y - oy))
        else [0; 0; 0; 0].
Proof.
  intros Hv Hm resized.
  destruct (center_sprite_canvas sprite Hv) as (_ & _ & Hbody).
  destruct (resized_bounds sprite Hv) as [Hw Hh].
  fold resized in Hbody, Hw, Hh.
  set (rw := Pil.width resized) in *. set (rh := Pil.height resized) in *.
  set (cw := 32 * - (- rw / 32)) in *. set (ch := 32 * - (- rh / 32)) in *.
  assert (Hcw : rw <= cw < rw + 32).
  { unfold cw. pose proof (Z.div_mod (- rw) 32 ltac:(lia)).
    pose proof (Z.mod_pos_bound (- rw) 32 ltac:(lia)). lia. }
  assert (Hch : rh <= ch < rh + 32).
  { unfold ch. pose proof (Z.div_mod (- rh) 32 ltac:(lia)).
    pose proof (Z.mod_pos_bound (- rh) 32 ltac:(lia)). lia. }
  assert (Hox : 2 * offset cw rw <= cw - rw < 2 * offset cw rw + 2).
  { unfold offset, PyNum.floordiv. pose proof (Z.div_mod (cw - rw) 2 ltac:(lia)).
    pose proof (Z.mod_pos_bound (cw - rw) 2 ltac:(lia)). lia. }
  assert (Hoy : 2 * offset ch rh <= ch - rh < 2 * offset ch rh + 2).
  { unfold offset, PyNum.floordiv. pose proof (Z.div_mod (ch - rh) 2 ltac:(lia)).
    pose proof (Z.mod_pos_bound (ch - rh) 2 ltac:(lia)). lia. }
  rewrite Hbody. unfold paste.
  assert (Hm' : Pil.mask_mode (Pil.im_mode resized) = true) by exact Hm.
  rewrite Hm'. eexists _, _, _. split; [reflexivity |].
  cbn [Pil.width Pil.height Pil.im_mode Pil.getpixel Pil.new fst snd].
  fold rw rh.
  split; [reflexivity |]. split; [reflexivity |].
  repeat (split; [lia |]). split; [reflexivity |].
  intros x y. unfold Pil.inside. fold rw rh.
  destruct (decide (offset cw rw <= x < offset cw rw + rw /\
                    offset ch rh <= y < offset ch rh + rh)) as [Hin | Hout].
  - destruct (Z.leb_spec 0 (x - offset cw rw)); [| lia].
    destruct (Z.ltb_spec (x - offset cw rw) rw); [| lia].
    destruct (Z.leb_spec 0 (y - offset ch rh)); [| lia].
    destruct (Z.ltb_spec (y - offset ch rh) rh); [| lia].
    reflexivity.
  - destruct (Z.leb_spec 0 (x - offset cw rw)); [| reflexivity].
    destruct (Z.ltb_spec (x - offset cw rw) rw); [| reflexivity].
    destruct (Z.leb_spec 0 (y - offset ch rh)); [| reflexivity].
    destruct (Z.ltb_spec (y - offset ch rh) rh); [| reflexivity].
    lia.
Qed.


End NormalizerOutcomes.

(** ** More runs on the samples *)

Lemma grey_sheet_raises_IndexError_witness :
  @getsprites Samples.lossless (Demo.sheet_world [Byte.x07]) =
    (Raise IndexError,
     mkWorld ({[ output_dir ]} ∪ ∅) {[ input_image_path := [Byte.x07] ]} []).
Proof.
  refine (@grey_sheet_raises_IndexError Samples.lossless
            (Demo.sheet_world [Byte.x07]) [Byte.x07] Samples.grey_mat _ _ _).
  - vm_compute. reflexivity.
  - reflexivity.
  - reflexivity.
Defined.


Lemma crop_of_contour_on_sheet_witness :
  Pil.width (Pil.crop Demo.sheet_image (2, 2, 14, 14)) = 12 /\
  Pil.getpixel (Pil.crop Demo.sheet_image (2, 2, 14, 14)) 11 0 =
    Pil.getpixel Demo.sheet_image 13 2.
Proof.
  assert (Hne : Demo.block <> []) by discriminate.
  assert (Hon : forall p, p ∈ Demo.block ->
            0 <= fst p < Pil.width Demo.sheet_image /\
            0 <= snd p < Pil.height Demo.sheet_image).
  { intros p Hp. unfold Demo.block in Hp.
    repeat (apply elem_of_cons in Hp as [-> | Hp]; [cbn; lia |]).
    by apply elem_of_nil in Hp. }
  destruct (crop_of_contour_on_sheet Demo.sheet_image Demo.block 2 2 12 12
              Hne Hon eq_refl) as (Hw & _ & _ & _ & _ & _ & _ & _ & _ & Hpts).
  split; [exact Hw |].
  assert (Hin : (13, 2) ∈ Demo.block)
    by (apply list_elem_of_further, list_elem_of_here).
  exact (proj2 (proj2 (Hpts (13, 2) Hin))).
Defined.

Lemma next_multiple_base_least_witness :
  exists c, next_multiple_base 10 7 = Ok c /\ least_multiple 7 10 c.
Proof.
  assert (Hn : 0 <= 10 <= 2 ^ 52) by (split; [lia | discriminate]).
  assert (Hb : 0 < 7 < 2 ^ 1021) by (split; reflexivity).
  destruct (next_multiple_base_least 10 7 Hn Hb) as (c & Hc & Hl & _).
  exists c. split; [exact Hc | exact Hl].
Defined.

Lemma next_multiple_overflows_witness :
  next_multiple (2 ^ 1029) = Raise OverflowError.
Proof. apply next_multiple_overflows. apply Z.le_refl. Defined.

Lemma missing_input_dir_raises_witness :
  @resizesprites Demo.tracing ["a.png"%string] Demo.empty_world =
    (Raise FileNotFoundError, mkWorld ({[ centered_dir ]} ∪ ∅) ∅ []).
Proof.
  apply (@missing_input_dir_raises Demo.tracing ["a.png"%string] Demo.empty_world).
  cbn [dirs Demo.empty_world]. apply not_elem_of_empty.
Defined.

Lemma first_bad_sprite_stops_the_run_witness :
  fst (@resizesprites Demo.tracing ["a.png"; "bad.png"; "c.png"]%string
         Samples.broken_world) = Raise UnidentifiedImageError /\
  files (snd (@resizesprites Demo.tracing ["a.png"; "bad.png"; "c.png"]%string
                Samples.broken_world)) !! centered_path "c.png" = None.
Proof.
  assert (Hdir : input_dir ∈ dirs Samples.broken_world).
  { cbn [dirs Samples.broken_world]. apply elem_of_singleton. reflexivity. }
  assert (Hpre : fst (@resizesprites Demo.tracing ["a.png"%string] Samples.broken_world)
                 = Ok tt) by (vm_compute; reflexivity).
  assert (Hbad : @centered_file Demo.tracing (files Samples.broken_world) "bad.png"
                 = Raise UnidentifiedImageError) by (vm_compute; reflexivity).
  destruct (@first_bad_sprite_stops_the_run Demo.tracing
              ["a.png"%string] ["c.png"%string] "bad.png" Samples.broken_world
              UnidentifiedImageError Hdir Hpre eq_refl Hbad)
    as (Hr & _ & _ & Hrest).
  split; [exact Hr |].
  refine (eq_trans (Hrest "c.png"%string _) _).
  - intros Hin. apply list_elem_of_singleton in Hin. discriminate Hin.
  - vm_compute. reflexivity.
Defined.

Lemma centered_footprint_witness :
  exists canvas,
    @center_sprite Demo.tracing Demo.square_sprite = Ok canvas /\
    0 <= offset (Pil.width canvas) 16 <= 15 /\
    Pil.getpixel canvas 0 0 = [0; 0; 0; 0].
Proof.
  assert (Hv : Pil.valid_size Demo.square_sprite) by (split; cbn; lia).
  destruct (@centered_footprint Demo.tracing Demo.square_sprite Hv eq_refl)
    as (canvas & ox & oy & Hc & Hox & Hoy & Hbx & Hby & Hinx & Hiny & Hmx & Hmy & _ & Hpix).
  exists canvas. split; [exact Hc |].
  change (Pil.width (@resize Demo.tracing Demo.square_sprite
            (new_size (Pil.width Demo.square_sprite) (Pil.height Demo.square_sprite))))
    with 16 in *.
  change (Pil.height (@resize Demo.tracing Demo.square_sprite
            (new_size (Pil.width Demo.square_sprite) (Pil.height Demo.square_sprite))))
    with 16 in *.
  split; [by rewrite <- Hox |].
  rewrite (Hpix 0 0). destruct (decide _) as [Hin | _]; [| reflexivity].
  assert (16 <= Pil.width canvas) by lia.
  assert (Hpos : 0 < ox); [| lia].
  (* the canvas of a 16-pixel sprite is 32 wide *)
  pose proof (f_equal (fun r => match r with Ok im => Pil.width im | Raise _ => 0 end) Hc)
    as Hw.
  cbn in Hw. rewrite <- Hw in Hox. vm_compute in Hox. lia.
Defined.


Lemma kept_iff_spans_10_witness : kept Demo.block = true.
Proof.
  assert (Hon : forall p, p ∈ Demo.block ->
            0 <= fst p < 2 ^ 31 - 1 /\ 0 <= snd p < 2 ^ 31 - 1).
  { intros p Hp. unfold Demo.block in Hp.
    repeat (apply elem_of_cons in Hp as [-> | Hp]; [cbn; lia |]).
    by apply elem_of_nil in Hp. }
  apply (proj2 (kept_iff_spans_10 Demo.block Hon)).
  assert (Hp : (2, 2) ∈ Demo.block) by apply list_elem_of_here.
  assert (Hq : (13, 13) ∈ Demo.block)
    by (do 2 apply list_elem_of_further; apply list_elem_of_here).
  split; exists (2, 2), (13, 13); (split; [exact Hp |]); (split; [exact Hq |]); cbn; lia.
Defined.

Lemma normalizer_succeeds_iff_witness :
  fst (@resizesprites Demo.tracing ["a.png"; "notes.txt"; "b.png"]%string
         Demo.sprites_world) = Ok tt.
Proof.
  assert (Hext : forall f, f ∈ ["a.png"; "notes.txt"; "b.png"]%string ->
            endswith f ".png" = true ->
            splitext_ext (centered_path f) = ".png"%string).
  { intros f Hf Hpng.
    repeat (apply elem_of_cons in Hf as [-> | Hf]; [first [reflexivity | discriminate Hpng] |]).
    by apply elem_of_nil in Hf. }
  apply (proj2 (@normalizer_succeeds_iff Demo.tracing
                  ["a.png"; "notes.txt"; "b.png"]%string Demo.sprites_world Hext)).
  split.
  - cbn [dirs Demo.sprites_world]. apply elem_of_singleton. reflexivity.
  - intros f Hf Hpng.
    repeat (apply elem_of_cons in Hf as [-> | Hf];
            [first [eexists; vm_compute; reflexivity | discriminate Hpng] |]).
    by apply elem_of_nil in Hf.
Defined.
